(** * Miguel, the mechanic agent: retrieval-to-response pipeline and speech
      fallback chain of [app.py], embedded in Rocq.

    Python values are modelled as follows.
    - [str] is a sequence of Unicode code points: [pystr := list N].  String
      literals of the source are written [u8 "..."], the UTF-8 decoding of the
      literal's bytes.
    - [float] is the kernel's binary64 [float]; [0.7] and [0.8] are the same
      doubles Python reads.
    - Exceptions are explicit: a computation that may raise returns an
      [outcome]; [try/except] is a case analysis on it.
    - The remote services (embedding model, vector index, speech synthesis)
      are fields of an environment record; every remote synthesis call is
      recorded in a trace. *)

From Stdlib Require Import List String Ascii NArith Arith Bool Lia.
From Stdlib Require Import Floats.PrimFloat Floats.FloatAxioms Floats.SpecFloat.
From Stdlib Require Import ZArith.
From Stdlib Require Import Numbers.DecimalString.
Import ListNotations.

Set Implicit Arguments.
Set Warnings "-inexact-float".

Open Scope list_scope.
Open Scope N_scope.

(* ================================================================= *)
(** ** Python strings *)

Definition pystr := list N.

(** UTF-8 decoding of a literal: [need] continuation bytes are still
    expected for the code point accumulated in [acc]. *)
Fixpoint utf8_decode (need : nat) (acc : N) (s : string) : pystr :=
  match s with
  | EmptyString => []
  | String a s' =>
      let b := N_of_ascii a in
      match need with
      | O =>
          if b <? 128 then b :: utf8_decode 0 0 s'
          else if b <? 224 then utf8_decode 1 (b - 192) s'
          else if b <? 240 then utf8_decode 2 (b - 224) s'
          else utf8_decode 3 (b - 240) s'
      | S k =>
          let acc' := acc * 64 + (b - 128) in
          match k with
          | O => acc' :: utf8_decode 0 0 s'
          | S _ => utf8_decode k acc' s'
          end
      end
  end.

Definition u8 (s : string) : pystr := utf8_decode 0 0 s.

(** The escape [\n] and the double quote, which a literal cannot hold. *)
Definition nl : pystr := [10].
Definition dquote : pystr := [34].

(** Truth value of a string or a list: non-empty. *)
Definition truthy {A : Type} (l : list A) : bool :=
  match l with [] => false | _ :: _ => true end.

Fixpoint str_eqb (a b : pystr) : bool :=
  match a, b with
  | [], [] => true
  | x :: a', y :: b' => (x =? y) && str_eqb a' b'
  | _, _ => false
  end.

(** [s.startswith(p)] *)
Fixpoint startswith (p s : pystr) : bool :=
  match p, s with
  | [], _ => true
  | _ :: _, [] => false
  | x :: p', y :: s' => (x =? y) && startswith p' s'
  end.

(** [sub in s]: [sub] occurs in [s] as a contiguous run of code points. *)
Fixpoint str_in (sub s : pystr) : bool :=
  startswith sub s ||
  match s with
  | [] => false
  | _ :: s' => str_in sub s'
  end.

(** [any(word in s for word in words)] *)
Definition any_in (words : list pystr) (s : pystr) : bool :=
  existsb (fun word => str_in word s) words.

(** [s.split('\n')]: never empty, the empty string gives one empty field. *)
Fixpoint split_lines (s : pystr) : list pystr :=
  match s with
  | [] => [[]]
  | c :: s' =>
      if c =? 10 then [] :: split_lines s'
      else match split_lines s' with
           | [] => [[c]]
           | l :: ls => (c :: l) :: ls
           end
  end.

(** [sep.join(parts)] on strings. *)
Fixpoint str_join (sep : pystr) (parts : list pystr) : pystr :=
  match parts with
  | [] => []
  | [p] => p
  | p :: ps => p ++ sep ++ str_join sep ps
  end.

(** The code points [str.isspace] accepts, which [str.strip()] removes. *)
Definition isspace (c : N) : bool :=
  ((9 <=? c) && (c <=? 13)) || ((28 <=? c) && (c <=? 32))
  || (c =? 133) || (c =? 160) || (c =? 5760)
  || ((8192 <=? c) && (c <=? 8202))
  || (c =? 8232) || (c =? 8233) || (c =? 8239) || (c =? 8287) || (c =? 12288).

Fixpoint lstrip (s : pystr) : pystr :=
  match s with
  | [] => []
  | c :: s' => if isspace c then lstrip s' else s
  end.

Definition rstrip (s : pystr) : pystr := rev (lstrip (rev s)).

(** [s.strip()] *)
Definition str_strip (s : pystr) : pystr := rstrip (lstrip s).

(** [s.replace(old, new)] for a non-empty [old]: occurrences are replaced
    left to right without overlap; [skip] counts the code points of the
    occurrence just replaced that are still to be dropped. *)
Fixpoint replace_from (old new : pystr) (skip : nat) (s : pystr) : pystr :=
  match s with
  | [] => []
  | c :: s' =>
      match skip with
      | S k => replace_from old new k s'
      | O =>
          if startswith old s
          then new ++ replace_from old new (Nat.pred (List.length old)) s'
          else c :: replace_from old new 0 s'
      end
  end.

Definition str_replace (old new s : pystr) : pystr := replace_from old new 0 s.

(** [str(i)] for a non-negative integer. *)
Definition str_of_nat (i : nat) : pystr := u8 (NilEmpty.string_of_uint (Nat.to_uint i)).

(** [enumerate(l, start)] *)
Fixpoint enumerate {A : Type} (start : nat) (l : list A) : list (nat * A) :=
  match l with
  | [] => []
  | x :: l' => (start, x) :: enumerate (S start) l'
  end.

(** [str.lower] restricted to Latin-1 text (code points below 256), where it
    is the code-point-wise map below; this covers Spanish.  The pipeline
    itself is stated over an arbitrary [str_lower]. *)
Definition lower_latin1_cp (c : N) : N :=
  if ((65 <=? c) && (c <=? 90)) || ((192 <=? c) && (c <=? 222) && negb (c =? 215))
  then c + 32 else c.

Definition lower_latin1 (s : pystr) : pystr := map lower_latin1_cp s.

(* ================================================================= *)
(** ** Text normalizer *)

(** [str.isalnum] restricted to Latin-1 text, code point by code point. *)
Definition isalnum_latin1 (c : N) : bool :=
  ((48 <=? c) && (c <=? 57)) || ((65 <=? c) && (c <=? 90)) || ((97 <=? c) && (c <=? 122))
  || (c =? 170) || ((178 <=? c) && (c <=? 179)) || (c =? 181)
  || ((185 <=? c) && (c <=? 186)) || ((188 <=? c) && (c <=? 190))
  || ((192 <=? c) && (c <=? 214)) || ((216 <=? c) && (c <=? 246))
  || ((248 <=? c) && (c <=? 255)).

Module Normalizer.
Section Normalizer.

(** [str.isalnum] on one code point: the class of a regular expression
    written backslash-w is this one and the underscore. *)
Variable isalnum : N -> bool.

(** The code points the first substitution keeps: word characters, white
    space, the listed accented letters, the degree sign and the hyphen. *)
Definition kept (c : N) : bool :=
  isalnum c || (c =? 95) || isspace c || existsb (N.eqb c) (u8 "áéíóúüñÁÉÍÓÚÜÑ°-").

(** The first substitution: every other code point becomes a space. *)
Definition blank_others (text : pystr) : pystr :=
  map (fun c => if kept c then c else 32) text.

(** The second substitution: every run of white space becomes one space;
    [in_run] tells that the previous code point was white space. *)
Fixpoint collapse (in_run : bool) (text : pystr) : pystr :=
  match text with
  | [] => []
  | c :: text' =>
      if isspace c then
        if in_run then collapse true text' else 32 :: collapse true text'
      else c :: collapse false text'
  end.

Definition preserved_terms : list pystr :=
  [u8 "RPM"; u8 "PSI"; u8 "GPS"; u8 "ABS"; u8 "ESP"; u8 "ECU"; u8 "OBD"; u8 "DTC"].

Definition clean_text_for_embedding (text : pystr) : pystr :=
  let text := blank_others text in
  let text := str_strip (collapse false text) in
  let text :=
    fold_left (fun text term => str_replace (lower_latin1 term) term text)
              preserved_terms text in
  text.

End Normalizer.
End Normalizer.

(** White space is single-spaced in a text: every white-space code point
    is a space and no two are adjacent; [after_space] tells that the
    previous code point was one. *)
Fixpoint single_spaced (after_space : bool) (text : pystr) : bool :=
  match text with
  | [] => true
  | c :: text' =>
      if isspace c then (c =? 32) && negb after_space && single_spaced true text'
      else single_spaced false text'
  end.

(** A text begins and ends with a code point that is not white space. *)
Definition trimmed (text : pystr) : bool :=
  match text with [] => true | c :: _ => negb (isspace c) end
  && match rev text with [] => true | c :: _ => negb (isspace c) end.

(** Where the white space of a text is, and which. *)
Definition shape (text : pystr) : list (option N) :=
  map (fun c => if isspace c then Some c else None) text.

(** No code point of [a] occurs in [b]. *)
Definition disjoint_chars (a b : pystr) : bool :=
  forallb (fun c => negb (existsb (N.eqb c) b)) a.

(* ================================================================= *)
(** ** Exceptions *)

(** The exception classes the code distinguishes: the two categories of the
    speech service ([botocore.exceptions]) and every other [Exception]. *)
Inductive exn : Type :=
| BotoCoreError (msg : pystr)
| ClientError (msg : pystr)
| OtherError (msg : pystr).

(** [str(e)] *)
Definition str_exn (e : exn) : pystr :=
  match e with
  | BotoCoreError msg | ClientError msg | OtherError msg => msg
  end.

(** [isinstance(e, (BotoCoreError, ClientError))] *)
Definition is_service_error (e : exn) : bool :=
  match e with
  | BotoCoreError _ | ClientError _ => true
  | OtherError _ => false
  end.

Inductive outcome (A : Type) : Type :=
| Return (a : A)
| Raise (e : exn).

Arguments Return {A} a.
Arguments Raise {A} e.

(* ================================================================= *)
(** ** Matches returned by the vector index *)

(** A metadata value: a string, or any other JSON value. *)
Inductive meta_value : Type :=
| MStr (s : pystr)
| MOther.

Definition dict (V : Type) := list (pystr * V).

Fixpoint dict_get {V : Type} (key : pystr) (d : dict V) : option V :=
  match d with
  | [] => None
  | (k, v) :: d' => if str_eqb k key then Some v else dict_get key d'
  end.

(** [key in d] *)
Definition dict_contains {V : Type} (key : pystr) (d : dict V) : bool :=
  match dict_get key d with Some _ => true | None => false end.

(** [metadata = None] stands for a match without the attribute, or with
    [None] in it. *)
Record Match : Type := mkMatch {
  id : pystr;
  score : float;
  metadata : option (dict meta_value)
}.

Record QueryResponse : Type := mkQueryResponse {
  matches : list Match
}.

(** ["\n".join(parts)]: raises [TypeError] on an item that is not a string. *)
Fixpoint join_values (parts : list meta_value) : outcome (list pystr) :=
  match parts with
  | [] => Return []
  | MStr s :: ps =>
      match join_values ps with
      | Return ss => Return (s :: ss)
      | Raise e => Raise e
      end
  | MOther :: _ => Raise (OtherError (u8 "sequence item: expected str instance"))
  end.

Definition join_lines (parts : list meta_value) : outcome pystr :=
  match join_values parts with
  | Return ss => Return (str_join nl ss)
  | Raise e => Raise e
  end.

(* ================================================================= *)
(** ** Technical information extractor *)

Record TechInfo : Type := mkTechInfo {
  procedures : list pystr;
  specifications : list pystr;
  warnings : list pystr;
  tools : list pystr
}.

Definition procedure_keywords : list pystr :=
  [u8 "paso"; u8 "procedimiento"; u8 "instrucción"; u8 "método"].
Definition specification_keywords : list pystr :=
  [u8 "especificación"; u8 "tolerancia"; u8 "medida"; u8 "valor"; u8 "psi"; u8 "rpm"; u8 "voltios"].
Definition warning_keywords : list pystr :=
  [u8 "advertencia"; u8 "precaución"; u8 "peligro"; u8 "importante"; u8 "nota"].
Definition tool_keywords : list pystr :=
  [u8 "herramienta"; u8 "equipo"; u8 "llave"; u8 "medidor"].

Section Agent.

(** [str.lower], Python's Unicode lower-casing. *)
Variable str_lower : pystr -> pystr.

(** One iteration of the loop over the lines of the context. *)
Definition extract_line (technical_data : TechInfo) (line : pystr) : TechInfo :=
  let line := str_strip line in
  if negb (truthy line) then technical_data
  else if any_in procedure_keywords (str_lower line) then
    mkTechInfo (procedures technical_data ++ [line]) (specifications technical_data)
               (warnings technical_data) (tools technical_data)
  else if any_in specification_keywords (str_lower line) then
    mkTechInfo (procedures technical_data) (specifications technical_data ++ [line])
               (warnings technical_data) (tools technical_data)
  else if any_in warning_keywords (str_lower line) then
    mkTechInfo (procedures technical_data) (specifications technical_data)
               (warnings technical_data ++ [line]) (tools technical_data)
  else if any_in tool_keywords (str_lower line) then
    mkTechInfo (procedures technical_data) (specifications technical_data)
               (warnings technical_data) (tools technical_data ++ [line])
  else technical_data.

Definition extract_technical_info (context : pystr) : TechInfo :=
  let technical_data := mkTechInfo [] [] [] [] in
  let lines := split_lines context in
  fold_left extract_line lines technical_data.

(* ================================================================= *)
(** ** Category templates *)

Definition motor_checks : pystr := u8 "**Verificaciones básicas del motor:**
• Nivel de aceite (entre MIN y MAX en la varilla)
• Temperatura del refrigerante (80-90°C operativo)
• Presión de aceite (2-4 bar a 2000 RPM)
• Estado de filtros (aire, combustible, aceite)

**Síntomas de alerta:**
• Luz de temperatura en tablero
• Ruidos metálicos o golpeteo
• Pérdida de potencia
• Consumo excesivo de combustible".

Definition generate_motor_response_with_context (tech_info : TechInfo) (confidence : float) : pystr :=
  let response := u8 "**DIAGNÓSTICO DE MOTOR - Miguel Mecánico**" ++ nl ++ nl in
  let response :=
    if truthy (specifications tech_info) then
      let response := response ++ u8 "**Especificaciones técnicas:**" ++ nl in
      let response :=
        fold_left (fun response spec => response ++ u8 "• " ++ spec ++ nl)
                  (firstn 3 (specifications tech_info)) response in
      response ++ nl
    else response in
  let response :=
    if truthy (procedures tech_info) then
      let response := response ++ u8 "**Procedimiento recomendado:**" ++ nl in
      let response :=
        fold_left (fun response '(i, proc) => response ++ str_of_nat i ++ u8 ". " ++ proc ++ nl)
                  (enumerate 1 (firstn 3 (procedures tech_info))) response in
      response ++ nl
    else response in
  let response := response ++ motor_checks in
  let response :=
    if truthy (warnings tech_info) then
      let response := response ++ nl ++ nl ++ u8 "**⚠️ PRECAUCIONES IMPORTANTES:**" ++ nl in
      fold_left (fun response warning => response ++ u8 "• " ++ warning ++ nl)
                (firstn 2 (warnings tech_info)) response
    else response in
  response.

Definition brakes_inspection : pystr := u8 "**Inspección de frenos:**
• Espesor de pastillas (mínimo 3mm)
• Estado de discos (sin ranuras profundas)
• Nivel de líquido de frenos (DOT 3 o DOT 4)
• Flexibilidad de mangueras

**Señales de mantenimiento:**
• Chirrido al frenar (pastillas gastadas)
• Vibración en pedal (discos deformados)
• Pedal esponjoso (aire en sistema)
• Distancia de frenado aumentada".

Definition generate_brakes_response_with_context (tech_info : TechInfo) (confidence : float) : pystr :=
  let response := u8 "**SISTEMA DE FRENOS - Miguel Mecánico**" ++ nl ++ nl in
  let response :=
    if truthy (procedures tech_info) then
      let response := response ++ u8 "**Procedimiento técnico:**" ++ nl in
      let response :=
        fold_left (fun response '(i, proc) => response ++ str_of_nat i ++ u8 ". " ++ proc ++ nl)
                  (enumerate 1 (firstn 3 (procedures tech_info))) response in
      response ++ nl
    else response in
  let response := response ++ brakes_inspection in
  let response :=
    if truthy (specifications tech_info) then
      let response := response ++ nl ++ u8 "**Especificaciones:**" ++ nl in
      fold_left (fun response spec => response ++ u8 "• " ++ spec ++ nl)
                (firstn 2 (specifications tech_info)) response
    else response in
  response.

Definition oil_change : pystr := u8 "**Cambio de aceite paso a paso:**
1. Motor tibio (no caliente) para mejor drenado
2. Drenar aceite usado completamente
3. Reemplazar filtro de aceite nuevo
4. Rellenar con aceite especificado
5. Verificar nivel después de 5 minutos

**Intervalos de mantenimiento:**
• Aceite sintético: 10,000-15,000 km
• Aceite convencional: 5,000-7,500 km
• Filtro: cada cambio de aceite
• Verificar nivel: semanalmente".

Definition generate_oil_response_with_context (tech_info : TechInfo) (confidence : float) : pystr :=
  let response := u8 "**SISTEMA DE LUBRICACIÓN - Miguel Mecánico**" ++ nl ++ nl in
  let response :=
    if truthy (specifications tech_info) then
      let response := response ++ u8 "**Especificaciones del aceite:**" ++ nl in
      let response :=
        fold_left (fun response spec => response ++ u8 "• " ++ spec ++ nl)
                  (firstn 3 (specifications tech_info)) response in
      response ++ nl
    else response in
  let response := response ++ oil_change in
  let response :=
    if truthy (procedures tech_info) then
      let response := response ++ nl ++ u8 "**Procedimientos adicionales:**" ++ nl in
      fold_left (fun response proc => response ++ u8 "• " ++ proc ++ nl)
                (firstn 2 (procedures tech_info)) response
    else response in
  response.

Definition electrical_diagnosis : pystr := u8 "**Diagnóstico de batería y alternador:**
• Voltaje batería en reposo: 12.6V
• Voltaje con motor encendido: 13.8-14.4V
• Densidad del electrolito: 1.265 g/cm³
• Terminales limpios y apretados

**Pruebas básicas:**
1. Multímetro en terminales de batería
2. Prueba de carga (arranque del motor)
3. Verificar correa del alternador
4. Revisar conexiones a masa".

Definition generate_electrical_response_with_context (tech_info : TechInfo) (confidence : float) : pystr :=
  let response := u8 "**SISTEMA ELÉCTRICO - Miguel Mecánico**" ++ nl ++ nl in
  let response :=
    if truthy (specifications tech_info) then
      let response := response ++ u8 "**Especificaciones eléctricas:**" ++ nl in
      let response :=
        fold_left (fun response spec => response ++ u8 "• " ++ spec ++ nl)
                  (firstn 3 (specifications tech_info)) response in
      response ++ nl
    else response in
  let response := response ++ electrical_diagnosis in
  let response :=
    if truthy (procedures tech_info) then
      let response := response ++ nl ++ u8 "**Procedimientos específicos:**" ++ nl in
      fold_left (fun response proc => response ++ u8 "• " ++ proc ++ nl)
                (firstn 2 (procedures tech_info)) response
    else response in
  response.

Definition tires_pressures : pystr := u8 "**Presiones recomendadas (verificar etiqueta del vehículo):**
• Neumáticos delanteros: 32-35 PSI
• Neumáticos traseros: 30-33 PSI
• Rueda de repuesto: 60 PSI
• Verificación: neumático frío

**Inspección visual:**
• Profundidad de banda (mínimo 1.6mm)
• Desgaste uniforme en toda la banda
• Grietas en flancos
• Objetos clavados (clavos, tornillos)".

Definition generate_tires_response_with_context (tech_info : TechInfo) (confidence : float) : pystr :=
  let response := u8 "**NEUMÁTICOS Y SUSPENSIÓN - Miguel Mecánico**" ++ nl ++ nl in
  let response :=
    if truthy (specifications tech_info) then
      let response := response ++ u8 "**Especificaciones:**" ++ nl in
      let response :=
        fold_left (fun response spec => response ++ u8 "• " ++ spec ++ nl)
                  (firstn 3 (specifications tech_info)) response in
      response ++ nl
    else response in
  let response := response ++ tires_pressures in
  response.

Definition transmission_maintenance : pystr := u8 "**Mantenimiento de transmisión:**
• Manual: Aceite cada 60,000 km
• Automática: Fluido cada 80,000 km
• Embrague: Inspección cada 40,000 km
• Verificar fugas regularmente

**Síntomas de problemas:**
• Dificultad para cambiar marchas
• Ruidos al cambiar
• Embrague que patina
• Tirones al acelerar".

Definition generate_transmission_response_with_context (tech_info : TechInfo) (confidence : float) : pystr :=
  let response := u8 "**TRANSMISIÓN - Miguel Mecánico**" ++ nl ++ nl in
  let response :=
    if truthy (procedures tech_info) then
      let response := response ++ u8 "**Procedimientos técnicos:**" ++ nl in
      let response :=
        fold_left (fun response proc => response ++ u8 "• " ++ proc ++ nl)
                  (firstn 3 (procedures tech_info)) response in
      response ++ nl
    else response in
  let response := response ++ transmission_maintenance in
  let response :=
    if truthy (specifications tech_info) then
      let response := response ++ nl ++ u8 "**Especificaciones:**" ++ nl in
      fold_left (fun response spec => response ++ u8 "• " ++ spec ++ nl)
                (firstn 2 (specifications tech_info)) response
    else response in
  response.

Definition general_diagnosis : pystr := u8 "**Diagnóstico general recomendado:**
1. Inspección visual completa
2. Verificación de códigos de error (OBD)
3. Pruebas específicas según síntomas
4. Consulta de manual técnico del vehículo

**Herramientas básicas necesarias:**
• Multímetro digital
• Scanner OBD2
• Juego de llaves métricas
• Manómetros de presión".

Definition general_disclaimer : pystr :=
  nl ++ nl ++ u8 "⚠️ **Recomendación:** Para un diagnóstico más preciso, es recomendable una inspección física del vehículo.".

Definition generate_general_response_with_context
    (tech_info : TechInfo) (query : pystr) (confidence : float) : pystr :=
  let response := u8 "**CONSULTA TÉCNICA - Miguel Mecánico**" ++ nl ++ nl in
  let response :=
    if truthy (procedures tech_info) then
      let response := response ++ u8 "**Información técnica relevante:**" ++ nl in
      let response :=
        fold_left (fun response proc => response ++ u8 "• " ++ proc ++ nl)
                  (firstn 3 (procedures tech_info)) response in
      response ++ nl
    else response in
  let response := response ++ general_diagnosis in
  let response :=
    if truthy (specifications tech_info) then
      let response := response ++ nl ++ u8 "**Datos técnicos:**" ++ nl in
      fold_left (fun response spec => response ++ u8 "• " ++ spec ++ nl)
                (firstn 2 (specifications tech_info)) response
    else response in
  let response :=
    if PrimFloat.ltb confidence 0.8%float then response ++ general_disclaimer
    else response in
  response.

(* ================================================================= *)
(** ** Response synthesizer *)

Definition low_confidence_motor : pystr := u8 "Basándome en mi experiencia como mecánico, para problemas de motor necesito más información específica:

**Síntomas comunes a revisar:**
- ¿El motor enciende pero no mantiene el ralentí?
- ¿Hay humo de algún color específico?
- ¿La temperatura sube anormalmente?
- ¿Escuchas ruidos extraños?

**Primeras verificaciones:**
- Nivel de aceite y refrigerante
- Estado de la batería (12.6V en reposo)
- Conexiones eléctricas limpias
- Filtros de aire y combustible

¿Podrías describir exactamente qué síntomas presenta el vehículo?".

Definition low_confidence_general : pystr := u8 "Como mecánico especializado, necesito más detalles para darte un diagnóstico preciso.

**Por favor comparte:**
- Marca, modelo y año del vehículo
- Síntomas específicos que observas
- Cuándo ocurre el problema
- Sonidos, olores o señales visuales
- Códigos de error (si los hay)

Mientras tanto, verifica:
- Niveles de fluidos (aceite, refrigerante, frenos)
- Estado de la batería
- Presión de neumáticos

¿Qué problema específico tiene tu vehículo?".

Definition generate_low_confidence_response (query : pystr) : pystr :=
  let query_lower := str_lower query in
  if any_in [u8 "motor"; u8 "arranque"; u8 "temperatura"] query_lower then
    low_confidence_motor
  else low_confidence_general.

Definition motor_keywords : list pystr :=
  [u8 "motor"; u8 "encender"; u8 "arrancar"; u8 "temperatura"; u8 "sobrecalentamiento"; u8 "rpm"].
Definition brakes_keywords : list pystr :=
  [u8 "frenos"; u8 "frenar"; u8 "pastillas"; u8 "disco"; u8 "pedal"].
Definition oil_keywords : list pystr :=
  [u8 "aceite"; u8 "lubricante"; u8 "cambio"; u8 "viscosidad"; u8 "filtro"].
Definition electrical_keywords : list pystr :=
  [u8 "batería"; u8 "eléctrico"; u8 "corriente"; u8 "alternador"; u8 "voltaje"].
Definition tires_keywords : list pystr :=
  [u8 "llantas"; u8 "neumáticos"; u8 "presión"; u8 "inflado"; u8 "desgaste"].
Definition transmission_keywords : list pystr :=
  [u8 "transmisión"; u8 "caja"; u8 "cambios"; u8 "embrague"; u8 "automática"].

Definition generate_mechanical_response
    (query context : pystr) (confidence_score : float) : pystr :=
  let query_lower := str_lower query in
  let key_info := extract_technical_info context in
  if any_in motor_keywords query_lower then
    generate_motor_response_with_context key_info confidence_score
  else if any_in brakes_keywords query_lower then
    generate_brakes_response_with_context key_info confidence_score
  else if any_in oil_keywords query_lower then
    generate_oil_response_with_context key_info confidence_score
  else if any_in electrical_keywords query_lower then
    generate_electrical_response_with_context key_info confidence_score
  else if any_in tires_keywords query_lower then
    generate_tires_response_with_context key_info confidence_score
  else if any_in transmission_keywords query_lower then
    generate_transmission_response_with_context key_info confidence_score
  else
    generate_general_response_with_context key_info query confidence_score.

Definition no_match_response : pystr := u8 "No encontré información específica sobre eso en mi base de conocimientos mecánicos. 

Como mecánico especializado, te recomiendo:
1. Proporciona más detalles sobre el problema (sonidos, síntomas, modelo del vehículo)
2. Indica cuándo comenzó el problema
3. Menciona si hay códigos de error en el tablero

¿Podrías darme más información para ayudarte mejor?".

Definition error_apology : pystr := u8 "Lo siento, hubo un error técnico procesando tu consulta mecánica. 

Por favor, intenta reformular tu pregunta o contacta directamente con un técnico especializado.".

(** [match.score > 0.7] *)
Definition passes_gate (m : Match) : bool := PrimFloat.ltb 0.7%float (score m).

(** [hasattr(match, 'metadata') and match.metadata and 'text' in match.metadata] *)
Definition has_text (m : Match) : bool :=
  match metadata m with
  | None => false
  | Some d => truthy d && dict_contains (u8 "text") d
  end.

(** [match.metadata['text']], read only under [has_text]. *)
Definition metadata_text (m : Match) : meta_value :=
  match metadata m with
  | Some d => match dict_get (u8 "text") d with Some v => v | None => MOther end
  | None => MOther
  end.

(** The body of the [try] block of [generate_response]; [context_matches]
    is [None] when the search returned [None]. *)
Definition generate_response_try
    (query : pystr) (context_matches : option QueryResponse) : outcome pystr :=
  match context_matches with
  | None => Return no_match_response
  | Some results =>
      if negb (truthy (matches results)) then Return no_match_response
      else
        let relevant_matches := filter passes_gate (matches results) in
        match relevant_matches with
        | [] => Return (generate_low_confidence_response query)
        | best :: _ =>
            let context_parts :=
              map metadata_text (filter has_text (firstn 3 relevant_matches)) in
            match join_lines context_parts with
            | Raise e => Raise e
            | Return context =>
                Return (generate_mechanical_response query context (score best))
            end
        end
  end.

Definition generate_response
    (query : pystr) (context_matches : option QueryResponse) : pystr :=
  match generate_response_try query context_matches with
  | Return response => response
  | Raise e => error_apology
  end.

(* ================================================================= *)
(** ** Similarity search *)

(** [model.encode(text).tolist()] and [index.query(vector, top_k, ...)] are
    remote capabilities; either may raise. *)
Record EmbeddingModel : Type := mkEmbeddingModel {
  encode : pystr -> outcome (list float)
}.

Record VectorIndex : Type := mkVectorIndex {
  index_query : list float -> nat -> outcome QueryResponse
}.

(** The module globals [index] and [model]; [None] until initialised. *)
Record SearchEnv : Type := mkSearchEnv {
  pinecone_index : option VectorIndex;
  model : option EmbeddingModel
}.

(** The regular-expression normaliser; its result only feeds the encoder. *)
Variable clean_text_for_embedding : pystr -> pystr.

Definition get_embedding (env : SearchEnv) (text : pystr) : option (list float) :=
  match model env with
  | None => None
  | Some m =>
      let clean_text := clean_text_for_embedding text in
      match encode m clean_text with
      | Return embedding => Some embedding
      | Raise e => None
      end
  end.

Definition query_pinecone (env : SearchEnv) (query : pystr) (top_k : nat)
  : option QueryResponse :=
  match pinecone_index env with
  | None => None
  | Some index =>
      match get_embedding env query with
      | None => None
      | Some query_embedding =>
          if negb (truthy query_embedding) then None
          else match index_query index query_embedding top_k with
               | Return results => Some results
               | Raise e => None
               end
      end
  end.

(* ================================================================= *)
(** ** The [chat] operation *)

Inductive json : Type :=
| JNull
| JBool (b : bool)
| JStr (s : pystr).

(** [jsonify(d)] with its status code. *)
Definition http_response : Type := dict json * nat.

Definition jsonify (d : dict json) : http_response := (d, 200%nat).

Definition greeting_keywords : list pystr :=
  [u8 "hola"; u8 "buenos días"; u8 "buenas tardes"; u8 "saludos"; u8 "iniciar"; u8 "empezar"].

Definition greeting_response : pystr := u8 "¡Hola! Soy Miguel, tu mecánico especializado en vehículos. Tengo acceso a una amplia base de conocimientos técnicos y manuales de mecánica automotriz.

**Puedo ayudarte con:**
• Diagnóstico de problemas del motor
• Mantenimiento preventivo y correctivo
• Sistema de frenos y suspensión
• Diagnóstico eléctrico y electrónico
• Transmisión manual y automática
• Sistema de refrigeración y lubricación
• Neumáticos y alineación

**Para un mejor diagnóstico, comparte:**
- Marca, modelo y año del vehículo
- Síntomas específicos que observas
- Códigos de error (si los tienes)

¿Qué problema tiene tu vehículo?".

Definition no_data_response : pystr := u8 "Como mecánico, no encuentro información específica sobre eso en mi base de conocimientos actual.

**Te puedo ayudar de manera general:**
- Describe el problema con más detalle
- ¿Qué síntomas específicos observas?
- ¿Cuándo comenzó el problema?
- ¿Hay sonidos, olores o luces de advertencia?

**Mientras tanto, verifica:**
• Niveles de fluidos (aceite, refrigerante, frenos)
• Estado de la batería (12.6V en reposo)
• Presión de neumáticos según especificación
• Códigos de error en el tablero

¿Podrías darme más información específica del problema?".

(** [message] is [data.get('message', '')].  Nothing in the body raises:
    [query_pinecone] and [generate_response] catch their own exceptions. *)
Definition chat (env : SearchEnv) (message : pystr) : http_response :=
  if negb (truthy message) then
    ([(u8 "error", JStr (u8 "No message provided"))], 400%nat)
  else
    let message_lower := str_lower message in
    let response :=
      if any_in greeting_keywords message_lower then greeting_response
      else
        let pinecone_results := query_pinecone env message 5 in
        match pinecone_results with
        | Some results =>
            if Nat.ltb 0 (List.length (matches results))
            then generate_response message pinecone_results
            else no_data_response
        | None => no_data_response
        end in
    jsonify [(u8 "response", JStr response); (u8 "end_call", JBool false)].

(* ================================================================= *)
(** ** Speech markup *)

(** The keys of the [improvements] dictionary, in insertion order. *)
Definition improvements : list pystr :=
  [u8 "motor"; u8 "frenos"; u8 "transmisión"; u8 "batería"; u8 "aceite"; u8 "neumáticos";
   u8 "presión"; u8 "temperatura"; u8 "voltaje"; u8 "diagnóstico"; u8 "mantenimiento";
   u8 "especificación"].

Definition improve_pronunciation (text : pystr) : pystr :=
  fold_left
    (fun text word =>
       str_replace word
         (u8 "<emphasis level=" ++ dquote ++ u8 "moderate" ++ dquote ++ u8 ">"
            ++ word ++ u8 "</emphasis>")
         text)
    improvements text.

(** [<break time="..."/>] *)
Definition break_tag (time : pystr) : pystr :=
  u8 "<break time=" ++ dquote ++ time ++ dquote ++ u8 "/>".

(** [re.sub] of a one-code-point class [cs], the replacement being the
    matched code point followed by [ins]. *)
Definition insert_after (cs : list N) (ins text : pystr) : pystr :=
  flat_map (fun c => if existsb (N.eqb c) cs then c :: ins else [c]) text.

Definition add_natural_pauses (text : pystr) : pystr :=
  let text := insert_after (u8 ".!?") (break_tag (u8 "700ms")) text in
  let text := insert_after (u8 ",") (break_tag (u8 "300ms")) text in
  let text := insert_after (u8 ":") (break_tag (u8 "400ms")) text in
  let text := str_replace (u8 "⚠️") (break_tag (u8 "500ms") ++ u8 "⚠️") text in
  text.

Definition indent (n : nat) : pystr := repeat 32 n.

Definition create_ssml_text (text : pystr) : pystr :=
  let improved_text := improve_pronunciation text in
  let text_with_pauses := add_natural_pauses improved_text in
  let ssml :=
    nl ++ indent 4 ++ u8 "<speak>" ++ nl
    ++ indent 8 ++ u8 "<prosody rate=" ++ dquote ++ u8 "95%" ++ dquote
       ++ u8 " pitch=" ++ dquote ++ u8 "-2%" ++ dquote
       ++ u8 " volume=" ++ dquote ++ u8 "loud" ++ dquote ++ u8 ">" ++ nl
    ++ indent 12 ++ u8 "<amazon:effect name=" ++ dquote ++ u8 "drc" ++ dquote ++ u8 ">" ++ nl
    ++ indent 16 ++ u8 "<amazon:effect vocal-tract-length=" ++ dquote ++ u8 "+5%" ++ dquote
       ++ u8 ">" ++ nl
    ++ indent 20 ++ text_with_pauses ++ nl
    ++ indent 16 ++ u8 "</amazon:effect>" ++ nl
    ++ indent 12 ++ u8 "</amazon:effect>" ++ nl
    ++ indent 8 ++ u8 "</prosody>" ++ nl
    ++ indent 4 ++ u8 "</speak>" ++ nl
    ++ indent 4 in
  str_strip ssml.

Definition create_generative_ssml (text : pystr) : pystr :=
  let improved_text := improve_pronunciation text in
  let text_with_pauses := add_natural_pauses improved_text in
  let ssml :=
    nl ++ indent 4 ++ u8 "<speak>" ++ nl
    ++ indent 8 ++ u8 "<prosody rate=" ++ dquote ++ u8 "90%" ++ dquote
       ++ u8 " pitch=" ++ dquote ++ u8 "-3%" ++ dquote
       ++ u8 " volume=" ++ dquote ++ u8 "medium" ++ dquote ++ u8 ">" ++ nl
    ++ indent 12 ++ u8 "<amazon:auto-breaths volume=" ++ dquote ++ u8 "x-soft" ++ dquote
       ++ u8 " frequency=" ++ dquote ++ u8 "low" ++ dquote ++ u8 ">" ++ nl
    ++ indent 16 ++ text_with_pauses ++ nl
    ++ indent 12 ++ u8 "</amazon:auto-breaths>" ++ nl
    ++ indent 8 ++ u8 "</prosody>" ++ nl
    ++ indent 4 ++ u8 "</speak>" ++ nl
    ++ indent 4 in
  str_strip ssml.

(* ================================================================= *)
(** ** Speech synthesis fallback chain *)

(** The keyword arguments of [polly.synthesize_speech]; [None] for an
    argument the call does not pass. *)
Record PollyRequest : Type := mkPollyRequest {
  Text : pystr;
  TextType : option pystr;
  OutputFormat : pystr;
  VoiceId : pystr;
  Engine : option pystr;
  LanguageCode : option pystr;
  SampleRate : option pystr
}.

(** [response['AudioStream'].read()] yields the audio bytes or raises. *)
Record PollyResponse : Type := mkPollyResponse {
  AudioStream_read : outcome (list N)
}.

Definition PollyClient : Type := PollyRequest -> outcome PollyResponse.

(** The credentials read from the process environment and the client
    [boto3.client('polly', ...)] builds from them. *)
Record SpeechEnv : Type := mkSpeechEnv {
  AWS_ACCESS_KEY : option pystr;
  AWS_SECRET_KEY : option pystr;
  boto3_client : outcome PollyClient
}.

(** [not v] for an optional string. *)
Definition missing (v : option pystr) : bool :=
  match v with
  | None => true
  | Some s => negb (truthy s)
  end.

(** Computations that may raise and that record each remote synthesis call
    in a trace. *)
Definition M (A : Type) : Type := list PollyRequest -> outcome A * list PollyRequest.

Definition ret {A : Type} (a : A) : M A := fun calls => (Return a, calls).

Definition bind {A B : Type} (m : M A) (k : A -> M B) : M B :=
  fun calls =>
    match m calls with
    | (Return a, calls') => k a calls'
    | (Raise e, calls') => (Raise e, calls')
    end.

Definition lift {A : Type} (o : outcome A) : M A := fun calls => (o, calls).

(** [try: m  except <classes> as e: handler e] *)
Definition try_except {A : Type} (m : M A) (classes : exn -> bool) (handler : exn -> M A) : M A :=
  fun calls =>
    match m calls with
    | (Return a, calls') => (Return a, calls')
    | (Raise e, calls') => if classes e then handler e calls' else (Raise e, calls')
    end.

Notation "x <- m ;; k" := (bind m (fun x => k))
  (at level 100, m at next level, right associativity).

(** One remote call of [polly.synthesize_speech], recorded in the trace. *)
Definition synthesize_speech (polly : PollyClient) (request : PollyRequest) : M PollyResponse :=
  fun calls => (polly request, calls ++ [request]).

(** [base64.b64encode(audio_data).decode('utf-8')]: three bytes give four
    characters of the alphabet, a shorter tail is padded with [=]. *)
Definition b64_alphabet : pystr :=
  u8 "ABCDEFGHIJKLMNOPQRSTUVWXYZabcdefghijklmnopqrstuvwxyz0123456789+/".

Definition b64_char (i : N) : N := nth (N.to_nat i) b64_alphabet 0.

Fixpoint b64encode (audio_data : list N) : pystr :=
  match audio_data with
  | [] => []
  | [a] => [b64_char (a / 4); b64_char ((a mod 4) * 16); 61; 61]
  | [a; b] =>
      [b64_char (a / 4); b64_char ((a mod 4) * 16 + b / 16); b64_char ((b mod 16) * 4); 61]
  | a :: b :: c :: rest =>
      b64_char (a / 4) :: b64_char ((a mod 4) * 16 + b / 16)
      :: b64_char ((b mod 16) * 4 + c / 64) :: b64_char (c mod 64)
      :: b64encode rest
  end.

Definition any_exception (e : exn) : bool := true.

Definition generative_request (text : pystr) : PollyRequest :=
  mkPollyRequest (create_generative_ssml text) (Some (u8 "ssml")) (u8 "mp3") (u8 "Miguel")
                 (Some (u8 "generative")) (Some (u8 "es-US")) (Some (u8 "24000")).

Definition neural_request (text : pystr) : PollyRequest :=
  mkPollyRequest (create_ssml_text text) (Some (u8 "ssml")) (u8 "mp3") (u8 "Miguel")
                 (Some (u8 "neural")) (Some (u8 "es-US")) None.

Definition standard_request (text : pystr) : PollyRequest :=
  mkPollyRequest text None (u8 "mp3") (u8 "Miguel") None None None.

(** The statements every tier shares after building its request: the call,
    reading the stream, and the JSON answer tagged with [engine]. *)
Definition synthesize_tier (polly : PollyClient) (request : PollyRequest) (engine : pystr)
  : M http_response :=
  response <- synthesize_speech polly request ;;
  audio_data <- lift (AudioStream_read response) ;;
  let audio_content := b64encode audio_data in
  ret (jsonify [(u8 "audioContent", JStr audio_content);
                (u8 "audioUrl", JStr (u8 "data:audio/mp3;base64," ++ audio_content));
                (u8 "useBrowserTTS", JBool false);
                (u8 "engine", JStr engine)]).

(** The body of the outer [try] block of [speak_text]; [text] is
    [data.get('text', '')]. *)
Definition speak_text_try (env : SpeechEnv) (text : pystr) : M http_response :=
  if negb (truthy text) then
    ret ([(u8 "error", JStr (u8 "No text provided"))], 400%nat)
  else if missing (AWS_ACCESS_KEY env) || missing (AWS_SECRET_KEY env) then
    ret (jsonify [(u8 "audioContent", JNull);
                  (u8 "audioUrl", JNull);
                  (u8 "useBrowserTTS", JBool true);
                  (u8 "text", JStr text)])
  else
    polly <- lift (boto3_client env) ;;
    try_except
      (synthesize_tier polly (generative_request text) (u8 "generative"))
      is_service_error
      (fun generative_error =>
         try_except
           (synthesize_tier polly (neural_request text) (u8 "neural"))
           is_service_error
           (fun neural_error =>
              try_except
                (synthesize_tier polly (standard_request text) (u8 "standard"))
                any_exception
                (fun fallback_error =>
                   ret (jsonify [(u8 "audioContent", JNull);
                                 (u8 "audioUrl", JNull);
                                 (u8 "useBrowserTTS", JBool true);
                                 (u8 "text", JStr text);
                                 (u8 "error", JStr (str_exn neural_error))])))).

(** [speak_text]: the answer sent to the caller and the remote synthesis
    calls made, in order. *)
Definition speak_text (env : SpeechEnv) (text : pystr) : http_response * list PollyRequest :=
  match try_except (speak_text_try env text) any_exception
          (fun e =>
             ret (jsonify [(u8 "audioContent", JNull);
                           (u8 "audioUrl", JNull);
                           (u8 "useBrowserTTS", JBool true);
                           (u8 "text", JStr text);
                           (u8 "error", JStr (str_exn e))]))
          []
  with
  | (Return response, calls) => (response, calls)
  | (Raise e, calls) => (([], 500%nat), calls) (* never taken: the handler catches all *)
  end.

(* ================================================================= *)
(** ** Adding knowledge *)

(** [d[key] = value]: the value of a key already present is replaced in
    place, a new key goes to the end. *)
Fixpoint dict_set {V : Type} (key : pystr) (value : V) (d : dict V) : dict V :=
  match d with
  | [] => [(key, value)]
  | (k, v) :: d' =>
      if str_eqb k key then (k, value) :: d' else (k, v) :: dict_set key value d'
  end.

(** [d.update(other)] *)
Definition dict_update {V : Type} (d other : dict V) : dict V :=
  fold_left (fun d '(k, v) => dict_set k v d) other d.

(** One vector of an [index.upsert] call: identifier, embedding, metadata. *)
Definition Vector : Type := (pystr * list float * dict meta_value)%type.

(** The module globals, the remote write [index.upsert] of the index they
    hold, and the clock read by [str(datetime.now())]. *)
Record KnowledgeEnv : Type := mkKnowledgeEnv {
  search_env : SearchEnv;
  index_upsert : list Vector -> outcome unit;
  datetime_now : pystr
}.

(** [add_knowledge]: [text], [doc_id] and [metadata] are the [text], [id]
    and [metadata] fields of the request, with their defaults.  The result
    is the answer and the upsert calls made. *)
Definition add_knowledge
    (env : KnowledgeEnv) (text doc_id : pystr) (metadata : dict meta_value)
  : http_response * list (list Vector) :=
  match pinecone_index (search_env env), model (search_env env) with
  | Some _, Some _ =>
      if negb (truthy text) || negb (truthy doc_id) then
        (([(u8 "error", JStr (u8 "Texto e ID son requeridos"))], 400%nat), [])
      else
        match get_embedding (search_env env) text with
        | None =>
            (([(u8 "error", JStr (u8 "No se pudo generar embedding"))], 500%nat), [])
        | Some embedding =>
            if negb (truthy embedding) then
              (([(u8 "error", JStr (u8 "No se pudo generar embedding"))], 500%nat), [])
            else
              let metadata :=
                dict_update metadata
                  [(u8 "text", MStr text);
                   (u8 "agent", MStr (u8 "Miguel"));
                   (u8 "category", MStr (u8 "mecanica_automotriz"));
                   (u8 "added_date", MStr (datetime_now env))] in
              match index_upsert env [(doc_id, embedding, metadata)] with
              | Return _ =>
                  (jsonify
                     [(u8 "success", JBool true);
                      (u8 "message",
                       JStr (u8 "Conocimiento agregado exitosamente a la base de Miguel"));
                      (u8 "doc_id", JStr doc_id)],
                   [[(doc_id, embedding, metadata)]])
              | Raise e =>
                  (([(u8 "error", JStr (str_exn e))], 500%nat),
                   [[(doc_id, embedding, metadata)]])
              end
        end
  | _, _ => (([(u8 "error", JStr (u8 "Pinecone no inicializado"))], 500%nat), [])
  end.

(* ================================================================= *)
(** ** Initialisation *)

Definition INDEX_NAME : pystr := u8 "mecanica-vehiculos".

(** The vector-store service and the model loader as [init_pinecone] uses
    them; every step may raise. *)
Record PineconeService : Type := mkPineconeService {
  PINECONE_API_KEY : option pystr;
  pinecone_init : outcome unit;
  pinecone_list_indexes : outcome (list pystr);
  pinecone_create_index : outcome unit;
  pinecone_Index : outcome VectorIndex;
  SentenceTransformer : outcome EmbeddingModel;
  describe_index_stats : VectorIndex -> outcome pystr
}.

Inductive setup_call : Type :=
| CallInit
| CallListIndexes
| CallCreateIndex
| CallOpenIndex
| CallLoadModel
| CallDescribeStats.

(** Computations over the module globals that may raise and that record
    the remote calls they make. *)
Definition Setup (A : Type) : Type :=
  SearchEnv * list setup_call -> outcome A * (SearchEnv * list setup_call).

Definition setup_ret {A : Type} (a : A) : Setup A := fun st => (Return a, st).

Definition setup_bind {A B : Type} (m : Setup A) (k : A -> Setup B) : Setup B :=
  fun st =>
    match m st with
    | (Return a, st') => k a st'
    | (Raise e, st') => (Raise e, st')
    end.

Notation "x <~ m ;; k" := (setup_bind m (fun x => k))
  (at level 100, m at next level, right associativity).

(** A remote call, recorded, with its outcome. *)
Definition remote {A : Type} (c : setup_call) (o : outcome A) : Setup A :=
  fun st => (o, (fst st, snd st ++ [c])).

(** [index = ...] and [model = ...] on the globals. *)
Definition set_index (index : VectorIndex) : Setup unit :=
  fun st => (Return tt, (mkSearchEnv (Some index) (model (fst st)), snd st)).

Definition set_model (m : EmbeddingModel) : Setup unit :=
  fun st => (Return tt, (mkSearchEnv (pinecone_index (fst st)) (Some m), snd st)).

(** The body of the [try] block of [init_pinecone]. *)
Definition init_pinecone_try (service : PineconeService) : Setup bool :=
  if negb (missing (PINECONE_API_KEY service)) then
    _ <~ remote CallInit (pinecone_init service) ;;
    names <~ remote CallListIndexes (pinecone_list_indexes service) ;;
    _ <~ (if negb (existsb (str_eqb INDEX_NAME) names)
          then remote CallCreateIndex (pinecone_create_index service)
          else setup_ret tt) ;;
    index <~ remote CallOpenIndex (pinecone_Index service) ;;
    _ <~ set_index index ;;
    m <~ remote CallLoadModel (SentenceTransformer service) ;;
    _ <~ set_model m ;;
    stats <~ remote CallDescribeStats (describe_index_stats service index) ;;
    setup_ret true
  else setup_ret false.

(** [init_pinecone]: the value returned, the globals afterwards, and the
    remote calls made. *)
Definition init_pinecone (service : PineconeService) (globals : SearchEnv)
  : bool * SearchEnv * list setup_call :=
  match init_pinecone_try service (globals, []) with
  | (Return ready, (globals', calls)) => (ready, globals', calls)
  | (Raise e, (globals', calls)) => (false, globals', calls)
  end.

(* ================================================================= *)
(** ** Specification-side definitions

    The definitions below follow the words of the specification; the
    theorems compare them with the functions above. *)

(** The domain categories of the dispatcher. *)
Inductive category : Type :=
| CEngine | CBrakes | CLubrication | CElectrical | CTires | CTransmission | CGeneral.

Definition category_keywords (c : category) : list pystr :=
  match c with
  | CEngine => motor_keywords
  | CBrakes => brakes_keywords
  | CLubrication => oil_keywords
  | CElectrical => electrical_keywords
  | CTires => tires_keywords
  | CTransmission => transmission_keywords
  | CGeneral => []
  end.

(** The fixed priority order of the six keyword categories. *)
Definition priority : list category :=
  [CEngine; CBrakes; CLubrication; CElectrical; CTires; CTransmission].

(** First category, in priority order, one of whose keywords occurs in the
    lower-cased query; [CGeneral] when there is none. *)
Definition classify_query (query_lower : pystr) : category :=
  match find (fun c => any_in (category_keywords c) query_lower) priority with
  | Some c => c
  | None => CGeneral
  end.

(** The template function of a category. *)
Definition render_category
    (c : category) (tech_info : TechInfo) (query : pystr) (confidence : float) : pystr :=
  match c with
  | CEngine => generate_motor_response_with_context tech_info confidence
  | CBrakes => generate_brakes_response_with_context tech_info confidence
  | CLubrication => generate_oil_response_with_context tech_info confidence
  | CElectrical => generate_electrical_response_with_context tech_info confidence
  | CTires => generate_tires_response_with_context tech_info confidence
  | CTransmission => generate_transmission_response_with_context tech_info confidence
  | CGeneral => generate_general_response_with_context tech_info query confidence
  end.

(** The title line every response of a category starts with. *)
Definition header (c : category) : pystr :=
  match c with
  | CEngine => u8 "**DIAGNÓSTICO DE MOTOR - Miguel Mecánico**"
  | CBrakes => u8 "**SISTEMA DE FRENOS - Miguel Mecánico**"
  | CLubrication => u8 "**SISTEMA DE LUBRICACIÓN - Miguel Mecánico**"
  | CElectrical => u8 "**SISTEMA ELÉCTRICO - Miguel Mecánico**"
  | CTires => u8 "**NEUMÁTICOS Y SUSPENSIÓN - Miguel Mecánico**"
  | CTransmission => u8 "**TRANSMISIÓN - Miguel Mecánico**"
  | CGeneral => u8 "**CONSULTA TÉCNICA - Miguel Mecánico**"
  end ++ nl ++ nl.

(** The fixed prose of a category. *)
Definition body (c : category) : pystr :=
  match c with
  | CEngine => motor_checks
  | CBrakes => brakes_inspection
  | CLubrication => oil_change
  | CElectrical => electrical_diagnosis
  | CTires => tires_pressures
  | CTransmission => transmission_maintenance
  | CGeneral => general_diagnosis
  end.

(** The closing disclaimer: only the general template has one, below 0.80. *)
Definition disclaimer (c : category) (confidence : float) : pystr :=
  match c with
  | CGeneral => if PrimFloat.ltb confidence 0.8%float then general_disclaimer else []
  | _ => []
  end.

(** What a template is when nothing was extracted. *)
Definition skeleton (c : category) (confidence : float) : pystr :=
  header c ++ body c ++ disclaimer c confidence.

(** A response is a category response when some template produced it. *)
Definition is_category_response (response : pystr) : Prop :=
  exists c tech_info query confidence,
    response = render_category c tech_info query confidence.

(** The four sequences of the extracted information. *)
Inductive info_kind : Type :=
| Procedures | Specifications | Warnings | Tools.

Definition info_kind_eqb (a b : info_kind) : bool :=
  match a, b with
  | Procedures, Procedures | Specifications, Specifications
  | Warnings, Warnings | Tools, Tools => true
  | _, _ => false
  end.

Definition items (k : info_kind) (tech_info : TechInfo) : list pystr :=
  match k with
  | Procedures => procedures tech_info
  | Specifications => specifications tech_info
  | Warnings => warnings tech_info
  | Tools => tools tech_info
  end.

Definition kind_keywords (k : info_kind) : list pystr :=
  match k with
  | Procedures => procedure_keywords
  | Specifications => specification_keywords
  | Warnings => warning_keywords
  | Tools => tool_keywords
  end.

(** First kind, in the order procedures, specifications, warnings, tools,
    one of whose keywords occurs in the lower-cased line. *)
Definition classify_line (line_lower : pystr) : option info_kind :=
  find (fun k => any_in (kind_keywords k) line_lower)
       [Procedures; Specifications; Warnings; Tools].

(** The trimmed non-empty lines of a text. *)
Definition content_lines (context : pystr) : list pystr :=
  filter truthy (map str_strip (split_lines context)).

(** The lines of a kind: those the classification assigns to it, in order. *)
Definition lines_of_kind (k : info_kind) (lines : list pystr) : list pystr :=
  filter (fun line => match classify_line (str_lower line) with
                      | Some k' => info_kind_eqb k k'
                      | None => false
                      end) lines.

(** How a template shows one of the extracted sequences. *)
Inductive list_style : Type :=
| Bulleted | Numbered.

Inductive segment : Type :=
| Fixed (text : pystr)
| Listing (source : info_kind) (lead heading : pystr) (style : list_style)
          (limit : nat) (trail : pystr).

Definition render_items (style : list_style) (shown : list pystr) : pystr :=
  match style with
  | Bulleted => List.concat (map (fun item => u8 "• " ++ item ++ nl) shown)
  | Numbered =>
      List.concat (map (fun '(i, item) => str_of_nat i ++ u8 ". " ++ item ++ nl)
                  (enumerate 1 shown))
  end.

(** A listing is omitted entirely, heading included, when its source is
    empty; otherwise it shows the first [limit] items. *)
Definition render_segment (tech_info : TechInfo) (sg : segment) : pystr :=
  match sg with
  | Fixed text => text
  | Listing source lead heading style limit trail =>
      match items source tech_info with
      | [] => []
      | _ :: _ =>
          lead ++ heading ++ nl
          ++ render_items style (firstn limit (items source tech_info)) ++ trail
      end
  end.

Definition render_layout (tech_info : TechInfo) (layout : list segment) : pystr :=
  List.concat (map (render_segment tech_info) layout).

(** The layout of each template: which sequences it shows, where, under
    which heading, and how many items at most. *)
Definition layout (c : category) : list segment :=
  match c with
  | CEngine =>
      [Fixed (header CEngine);
       Listing Specifications [] (u8 "**Especificaciones técnicas:**") Bulleted 3 nl;
       Listing Procedures [] (u8 "**Procedimiento recomendado:**") Numbered 3 nl;
       Fixed (body CEngine);
       Listing Warnings (nl ++ nl) (u8 "**⚠️ PRECAUCIONES IMPORTANTES:**") Bulleted 2 []]
  | CBrakes =>
      [Fixed (header CBrakes);
       Listing Procedures [] (u8 "**Procedimiento técnico:**") Numbered 3 nl;
       Fixed (body CBrakes);
       Listing Specifications nl (u8 "**Especificaciones:**") Bulleted 2 []]
  | CLubrication =>
      [Fixed (header CLubrication);
       Listing Specifications [] (u8 "**Especificaciones del aceite:**") Bulleted 3 nl;
       Fixed (body CLubrication);
       Listing Procedures nl (u8 "**Procedimientos adicionales:**") Bulleted 2 []]
  | CElectrical =>
      [Fixed (header CElectrical);
       Listing Specifications [] (u8 "**Especificaciones eléctricas:**") Bulleted 3 nl;
       Fixed (body CElectrical);
       Listing Procedures nl (u8 "**Procedimientos específicos:**") Bulleted 2 []]
  | CTires =>
      [Fixed (header CTires);
       Listing Specifications [] (u8 "**Especificaciones:**") Bulleted 3 nl;
       Fixed (body CTires)]
  | CTransmission =>
      [Fixed (header CTransmission);
       Listing Procedures [] (u8 "**Procedimientos técnicos:**") Bulleted 3 nl;
       Fixed (body CTransmission);
       Listing Specifications nl (u8 "**Especificaciones:**") Bulleted 2 []]
  | CGeneral =>
      [Fixed (header CGeneral);
       Listing Procedures [] (u8 "**Información técnica relevante:**") Bulleted 3 nl;
       Fixed (body CGeneral);
       Listing Specifications nl (u8 "**Datos técnicos:**") Bulleted 2 []]
  end.

(** The display limit a layout gives a sequence; [0] when the layout does
    not show that sequence at all. *)
Fixpoint display_limit (k : info_kind) (l : list segment) : nat :=
  match l with
  | [] => 0%nat
  | Fixed _ :: l' => display_limit k l'
  | Listing source _ _ _ limit _ :: l' =>
      if info_kind_eqb k source then limit else display_limit k l'
  end.

(** The concatenated text of the retrieved passages: the [text] metadata of
    the first three matches past the confidence gate that carry one. *)
Definition retrieved_context (ms : list Match) : outcome pystr :=
  join_lines (map metadata_text (filter has_text (firstn 3 (filter passes_gate ms)))).

(** The outcome of one tier: the audio bytes, or the exception raised by
    the synthesis call or by reading its stream. *)
Definition tier_outcome (polly : PollyClient) (request : PollyRequest) : outcome (list N) :=
  match polly request with
  | Return response => AudioStream_read response
  | Raise e => Raise e
  end.

(** The answer of a tier that succeeded with [audio_data]. *)
Definition audio_answer (audio_data : list N) (engine : pystr) : http_response :=
  jsonify [(u8 "audioContent", JStr (b64encode audio_data));
           (u8 "audioUrl", JStr (u8 "data:audio/mp3;base64," ++ b64encode audio_data));
           (u8 "useBrowserTTS", JBool false);
           (u8 "engine", JStr engine)].

(** The client-side fallback signal: the caller is told to synthesise
    [text] locally; [error] is the error reported, if any. *)
Definition fallback_signal (text : pystr) (error : option pystr) : http_response :=
  match error with
  | None =>
      jsonify [(u8 "audioContent", JNull);
               (u8 "audioUrl", JNull);
               (u8 "useBrowserTTS", JBool true);
               (u8 "text", JStr text)]
  | Some msg =>
      jsonify [(u8 "audioContent", JNull);
               (u8 "audioUrl", JNull);
               (u8 "useBrowserTTS", JBool true);
               (u8 "text", JStr text);
               (u8 "error", JStr msg)]
  end.

(** An answer tells the caller to synthesise locally. *)
Definition is_client_fallback (r : http_response) : bool :=
  match dict_get (u8 "useBrowserTTS") (fst r) with
  | Some (JBool true) => true
  | _ => false
  end.

(** The credentials are present and the client was built. *)
Definition speech_ready (env : SpeechEnv) (polly : PollyClient) : Prop :=
  missing (AWS_ACCESS_KEY env) = false /\ missing (AWS_SECRET_KEY env) = false
  /\ boto3_client env = Return polly.








(** A step returned rather than raised. *)
Definition returned {A : Type} (o : outcome A) : bool :=
  match o with
  | Return _ => true
  | Raise _ => false
  end.

(** The remote call [c] of the initialisation raises on this service; the
    statistics are read on the index that was opened. *)
Definition call_raised (service : PineconeService) (c : setup_call) : bool :=
  match c with
  | CallInit => negb (returned (pinecone_init service))
  | CallListIndexes => negb (returned (pinecone_list_indexes service))
  | CallCreateIndex => negb (returned (pinecone_create_index service))
  | CallOpenIndex => negb (returned (pinecone_Index service))
  | CallLoadModel => negb (returned (SentenceTransformer service))
  | CallDescribeStats =>
      match pinecone_Index service with
      | Return index => negb (returned (describe_index_stats service index))
      | Raise _ => false
      end
  end.

(** The record after a line of kind [k] was appended to its sequence. *)
Definition add_line (k : option info_kind) (td : TechInfo) (line : pystr) : TechInfo :=
  match k with
  | Some Procedures =>
      mkTechInfo (procedures td ++ [line]) (specifications td) (warnings td) (tools td)
  | Some Specifications =>
      mkTechInfo (procedures td) (specifications td ++ [line]) (warnings td) (tools td)
  | Some Warnings =>
      mkTechInfo (procedures td) (specifications td) (warnings td ++ [line]) (tools td)
  | Some Tools =>
      mkTechInfo (procedures td) (specifications td) (warnings td) (tools td ++ [line])
  | None => td
  end.

(** All the categories, in priority order. *)
Definition all_categories : list category :=
  [CEngine; CBrakes; CLubrication; CElectrical; CTires; CTransmission; CGeneral].

(** The display limits of a category: specifications, procedures,
    warnings, tools. *)
Definition display_limits (c : category) : nat * nat * nat * nat :=
  (display_limit Specifications (layout c), display_limit Procedures (layout c),
   display_limit Warnings (layout c), display_limit Tools (layout c)).

(** The uniform reading: a response shows the first three specifications,
    the first three procedures and the first two warnings. *)
Definition shows_uniform_lists (tech_info : TechInfo) (response : pystr) : Prop :=
  (forall x, In x (firstn 3 (specifications tech_info)) -> str_in x response = true)
  /\ (forall x, In x (firstn 3 (procedures tech_info)) -> str_in x response = true)
  /\ (forall x, In x (firstn 2 (warnings tech_info)) -> str_in x response = true).

(** The three requests of the chain, in the order of the tiers. *)
Definition tier_requests (text : pystr) : list PollyRequest :=
  [generative_request text; neural_request text; standard_request text].

(** Two strings differ at a position both have: neither is a prefix of the
    other, whatever follows them. *)
Fixpoint diverge (a b : pystr) : bool :=
  match a, b with
  | x :: a', y :: b' => negb (x =? y) || diverge a' b'
  | _, _ => false
  end.

(** The four fixed answers that interpolate nothing. *)
Definition fixed_templates : list pystr :=
  [no_match_response; low_confidence_motor; low_confidence_general; error_apology].

(* ================================================================= *)
(** ** Speech markup, specification side *)

(** [s.endswith(suffix)] *)
Definition endswith (suffix s : pystr) : bool := startswith (rev suffix) (rev s).

(** What precedes and what follows the annotated text in the markup of the
    generative tier. *)
Definition generative_prologue : pystr :=
  u8 "<speak>" ++ nl
  ++ indent 8 ++ u8 "<prosody rate=" ++ dquote ++ u8 "90%" ++ dquote
     ++ u8 " pitch=" ++ dquote ++ u8 "-3%" ++ dquote
     ++ u8 " volume=" ++ dquote ++ u8 "medium" ++ dquote ++ u8 ">" ++ nl
  ++ indent 12 ++ u8 "<amazon:auto-breaths volume=" ++ dquote ++ u8 "x-soft" ++ dquote
     ++ u8 " frequency=" ++ dquote ++ u8 "low" ++ dquote ++ u8 ">" ++ nl
  ++ indent 16.

Definition generative_epilogue : pystr :=
  nl ++ indent 12 ++ u8 "</amazon:auto-breaths>" ++ nl
  ++ indent 8 ++ u8 "</prosody>" ++ nl
  ++ indent 4 ++ u8 "</speak>".

(** The same for the markup of the neural tier. *)
Definition neural_prologue : pystr :=
  u8 "<speak>" ++ nl
  ++ indent 8 ++ u8 "<prosody rate=" ++ dquote ++ u8 "95%" ++ dquote
     ++ u8 " pitch=" ++ dquote ++ u8 "-2%" ++ dquote
     ++ u8 " volume=" ++ dquote ++ u8 "loud" ++ dquote ++ u8 ">" ++ nl
  ++ indent 12 ++ u8 "<amazon:effect name=" ++ dquote ++ u8 "drc" ++ dquote ++ u8 ">" ++ nl
  ++ indent 16 ++ u8 "<amazon:effect vocal-tract-length=" ++ dquote ++ u8 "+5%" ++ dquote
     ++ u8 ">" ++ nl
  ++ indent 20.

Definition neural_epilogue : pystr :=
  nl ++ indent 16 ++ u8 "</amazon:effect>" ++ nl
  ++ indent 12 ++ u8 "</amazon:effect>" ++ nl
  ++ indent 8 ++ u8 "</prosody>" ++ nl
  ++ indent 4 ++ u8 "</speak>".

(** The pause that follows one code point of the text: 700 ms after a
    sentence end, 300 ms after a comma, 400 ms after a colon. *)
Definition pause_mark (c : N) : pystr :=
  if existsb (N.eqb c) (u8 ".!?") then c :: break_tag (u8 "700ms")
  else if existsb (N.eqb c) (u8 ",") then c :: break_tag (u8 "300ms")
  else if existsb (N.eqb c) (u8 ":") then c :: break_tag (u8 "400ms")
  else [c].

(** The engine tags an audio answer can carry. *)
Definition engine_tags : list pystr := [u8 "generative"; u8 "neural"; u8 "standard"].

(** The code points after which, or before which, a pause is inserted. *)
Definition pause_triggers : pystr := u8 ".!?,:".

(** The sequences of two extractions, one after the other. *)
Definition tech_append (a b : TechInfo) : TechInfo :=
  mkTechInfo (procedures a ++ procedures b) (specifications a ++ specifications b)
             (warnings a ++ warnings b) (tools a ++ tools b).

(** The metadata keys [add_knowledge] writes itself. *)
Definition stamped_keys : list pystr :=
  [u8 "text"; u8 "agent"; u8 "category"; u8 "added_date"].

(* ================================================================= *)
(** ** Concrete inputs *)

Definition example_text : pystr := u8 "Revisa el motor.".

(** Credentials present, client built. *)
Definition creds_env (polly : PollyClient) : SpeechEnv :=
  mkSpeechEnv (Some (u8 "AKIAEXAMPLE")) (Some (u8 "secret")) (Return polly).

(** A service that rejects the generative and the neural engine and serves
    the standard one. *)
Definition polly_standard_only : PollyClient :=
  fun request =>
    match Engine request with
    | Some engine => Raise (ClientError (u8 "engine not supported"))
    | None => Return (mkPollyResponse (Return [73; 68; 51]))
    end.

(** A service in which every tier fails with a service error of its own. *)
Definition polly_all_fail : PollyClient :=
  fun request =>
    match Engine request with
    | Some engine =>
        if str_eqb engine (u8 "generative")
        then Raise (ClientError (u8 "generative rejected"))
        else Raise (ClientError (u8 "neural rejected"))
    | None => Raise (BotoCoreError (u8 "standard rejected"))
    end.

(** A service whose every call raises an exception that is not a service
    error. *)
Definition polly_crash : PollyClient :=
  fun request => Raise (OtherError (u8 "boom")).

(** A service that rejects the first two tiers and crashes in the third. *)
Definition polly_crash_standard : PollyClient :=
  fun request =>
    match Engine request with
    | Some engine => Raise (ClientError (u8 "engine not supported"))
    | None => Raise (OtherError (u8 "boom"))
    end.

Definition tires_query : pystr := u8 "¿Qué presión deben tener mis llantas?".

Definition tires_passage : pystr := u8 "PSI recomendado: 32
Paso 1: medir con el neumático frío
ADVERTENCIA: no exceder el máximo
Usar un manómetro, equipo calibrado".

Definition tires_match : Match :=
  mkMatch (u8 "doc-1") 0.85%float (Some [(u8 "text", MStr tires_passage)]).

Definition untexted_match : Match :=
  mkMatch (u8 "doc-2") 0.9%float (Some [(u8 "source", MStr (u8 "manual"))]).

Definition weak_match (s : float) : Match :=
  mkMatch (u8 "doc-3") s (Some [(u8 "text", MStr tires_passage)]).

(** One line for each kind of extracted information. *)
Definition procedure_line : pystr := u8 "  Paso 1: medir con el neumático frío".
Definition specification_line : pystr := u8 "PSI recomendado: 32".
Definition warning_line : pystr := u8 "ADVERTENCIA: no exceder el máximo  ".
Definition tool_line : pystr := u8 "Usar un manómetro, equipo calibrado".

Definition motor_and_brakes_query : pystr := u8 "El MOTOR vibra y los frenos chirrían".

Definition breakdown_message : pystr := u8 "El coche hace un ruido raro".

(** Three of each, for the templates. *)
Definition full_info : TechInfo :=
  mkTechInfo
    [u8 "Paso 1: aflojar"; u8 "Paso 2: retirar"; u8 "Paso 3: montar"]
    [u8 "Medida: 3 mm"; u8 "Tolerancia: 0.1 mm"; u8 "Valor: 90 Nm"]
    [u8 "Advertencia: usar guantes"; u8 "Peligro: disco caliente"]
    [u8 "Llave de 17"].

(** No index, no model. *)
Definition cold_env : SearchEnv := mkSearchEnv None None.

(** An initialised index and model that answer every call. *)
Definition toy_model : EmbeddingModel :=
  mkEmbeddingModel (fun text => Return [0.25%float; 0.5%float]).

Definition toy_index : VectorIndex :=
  mkVectorIndex (fun vector top_k => Return (mkQueryResponse [tires_match])).

Definition warm_env : SearchEnv := mkSearchEnv (Some toy_index) (Some toy_model).

(** A knowledge request whose metadata tries to set [text] itself. *)
Definition knowledge_env : KnowledgeEnv :=
  mkKnowledgeEnv warm_env (fun vectors => Return tt) (u8 "2024-05-01 10:00:00").

Definition supplied_metadata : dict meta_value :=
  [(u8 "text", MStr (u8 "otro texto")); (u8 "source", MStr (u8 "manual"))].

Definition stamped_metadata : dict meta_value :=
  [(u8 "text", MStr tires_passage); (u8 "source", MStr (u8 "manual"));
   (u8 "agent", MStr (u8 "Miguel")); (u8 "category", MStr (u8 "mecanica_automotriz"));
   (u8 "added_date", MStr (u8 "2024-05-01 10:00:00"))].

(** A service on which the index already exists and every step succeeds. *)
Definition ready_service : PineconeService :=
  mkPineconeService (Some (u8 "pc-key")) (Return tt) (Return [u8 "mecanica-vehiculos"])
    (Return tt) (Return toy_index) (Return toy_model) (fun index => Return (u8 "stats")).

(** A service without the index, on which creating it fails. *)
Definition failing_service : PineconeService :=
  mkPineconeService (Some (u8 "pc-key")) (Return tt) (Return [u8 "otro-indice"])
    (Raise (OtherError (u8 "quota"))) (Return toy_index) (Return toy_model)
    (fun index => Return (u8 "stats")).

Definition plain_text : pystr := u8 "Hola Miguel".

(** A text with punctuation, runs of white space and acronyms in lower
    case, one of them inside a longer word. *)
Definition noisy_text : pystr := u8 "  La respuesta del abs:   120 psi!  ".

Definition greeting_message : pystr := u8 "Hola, buenos días".

(* ================================================================= *)
(** * Properties *)

Unset Implicit Arguments.

(** Literals are compared as they are written, or evaluated by the virtual
    machine; the unifier never decodes them. *)
Arguments u8 : simpl never.
Opaque u8.

(** ** Loops that append to a string *)

Lemma fold_left_append {A : Type} (f : A -> pystr) (l : list A) (init : pystr) :
  fold_left (fun response x => response ++ f x) l init = init ++ List.concat (map f l).
Proof.
  revert init. induction l as [| x l IH]; intros init; simpl.
  - now rewrite app_nil_r.
  - rewrite IH. now rewrite <- app_assoc.
Qed.

Lemma fold_left_append_numbered (l : list (nat * pystr)) (init : pystr) :
  fold_left (fun response '(i, proc) => response ++ str_of_nat i ++ u8 ". " ++ proc ++ nl) l init
  = init ++ List.concat (map (fun '(i, proc) => str_of_nat i ++ u8 ". " ++ proc ++ nl) l).
Proof.
  revert init. induction l as [| [i x] l IH]; intros init; simpl.
  - now rewrite app_nil_r.
  - rewrite IH. now rewrite <- app_assoc.
Qed.

Lemma truthy_false {A : Type} (l : list A) : truthy l = false <-> l = [].
Proof. destruct l; simpl; split; congruence. Qed.

Lemma truthy_true {A : Type} (l : list A) : truthy l = true <-> l <> [].
Proof. destruct l; simpl; split; congruence. Qed.

(** ** Every template is its layout *)

Lemma render_category_layout (c : category) (ti : TechInfo) (query : pystr) (confidence : float) :
  render_category c ti query confidence = render_layout ti (layout c) ++ disclaimer c confidence.
Proof.
  destruct ti as [procs specs warns tls].
  destruct c; unfold render_category, disclaimer;
    [ unfold generate_motor_response_with_context
    | unfold generate_brakes_response_with_context
    | unfold generate_oil_response_with_context
    | unfold generate_electrical_response_with_context
    | unfold generate_tires_response_with_context
    | unfold generate_transmission_response_with_context
    | unfold generate_general_response_with_context ].
  all: unfold render_layout, layout, header, body;
    cbn [map List.concat render_segment render_items items
         procedures specifications warnings tools].
  all: destruct procs as [| p procs]; destruct specs as [| s specs];
    destruct warns as [| w warns]; cbn [truthy].
  all: rewrite ?fold_left_append, ?fold_left_append_numbered.
  all: try destruct (PrimFloat.ltb confidence 0.8).
  all: rewrite <- ?app_assoc.
  all: rewrite ?app_nil_r.
  all: rewrite ?app_nil_l.
  all: reflexivity.
Qed.

Lemma diverge_app (a b x y : pystr) : diverge a b = true -> a ++ x <> b ++ y.
Proof.
  revert b. induction a as [| c a IH]; intros [| d b]; simpl; try discriminate.
  intros H E. injection E as E1 E2.
  apply orb_true_iff in H as [H | H].
  - apply negb_true_iff, N.eqb_neq in H. contradiction.
  - exact (IH b H E2).
Qed.

Lemma diverge_neq (a b : pystr) : diverge a b = true -> a <> b.
Proof.
  intros H E. apply (diverge_app a b [] [] H). now rewrite !app_nil_r.
Qed.

Lemma render_category_header (c : category) ti query confidence :
  exists rest, render_category c ti query confidence = header c ++ rest.
Proof.
  rewrite render_category_layout.
  destruct c; unfold render_layout, layout; cbn [map List.concat render_segment];
    rewrite <- app_assoc; eauto.
Qed.

Lemma headers_diverge (c c' : category) : c <> c' -> diverge (header c) (header c') = true.
Proof.
  destruct c, c'; intros H; try congruence; vm_compute; reflexivity.
Qed.

Lemma fixed_template_not_category (t : pystr) :
  In t fixed_templates -> ~ is_category_response t.
Proof.
  intros Hin (c & ti & q & conf & E).
  destruct (render_category_header c ti q conf) as [rest Hr].
  rewrite Hr in E. clear Hr.
  assert (D : diverge t (header c) = true).
  { simpl in Hin.
    destruct Hin as [<- | [<- | [<- | [<- | []]]]]; destruct c; vm_compute; reflexivity. }
  apply (diverge_app t (header c) [] rest D).
  now rewrite app_nil_r.
Qed.

(** ** Dispatch by category *)

Lemma generate_mechanical_response_classify (query context : pystr) (confidence : float) :
  generate_mechanical_response query context confidence
  = render_category (classify_query (str_lower query)) (extract_technical_info context)
                    query confidence.
Proof.
  unfold generate_mechanical_response, classify_query, priority.
  cbn [find category_keywords].
  destruct (any_in motor_keywords (str_lower query)); [reflexivity |].
  destruct (any_in brakes_keywords (str_lower query)); [reflexivity |].
  destruct (any_in oil_keywords (str_lower query)); [reflexivity |].
  destruct (any_in electrical_keywords (str_lower query)); [reflexivity |].
  destruct (any_in tires_keywords (str_lower query)); [reflexivity |].
  destruct (any_in transmission_keywords (str_lower query)); reflexivity.
Qed.

(** ** The confidence gate *)

Lemma compare_cont_swap (m1 m2 : positive) :
  Pos.compare_cont Eq m2 m1 = CompOpp (Pos.compare_cont Eq m1 m2).
Proof. symmetry. exact (Pos.compare_cont_antisym m1 m2 Eq). Qed.

Lemma SFleb_not_SFltb (x y : spec_float) : SFleb x y = true -> SFltb y x = false.
Proof.
  unfold SFleb, SFltb.
  destruct x as [sx | sx | | sx mx ex], y as [sy | sy | | sy my ey];
    cbn [SFcompare]; try discriminate; try reflexivity;
    try (destruct sx; try discriminate; try reflexivity);
    try (destruct sy; try discriminate; try reflexivity).
  all: rewrite (Z.compare_antisym ex ey);
    destruct (ex ?= ey)%Z; cbn [CompOpp]; try discriminate; try reflexivity;
    change (PosDef.Pos.compare_cont Eq my mx) with (Pos.compare_cont Eq my mx);
    rewrite (compare_cont_swap mx my);
    change (PosDef.Pos.compare_cont Eq mx my) with (Pos.compare_cont Eq mx my);
    destruct (Pos.compare_cont Eq mx my); cbn [CompOpp]; try discriminate; reflexivity.
Qed.

(** A score at most 0.70 does not pass the gate. *)
Lemma gate_closed_below (s : float) :
  PrimFloat.leb s 0.7%float = true -> PrimFloat.ltb 0.7%float s = false.
Proof.
  rewrite leb_spec, ltb_spec. apply SFleb_not_SFltb.
Qed.

Lemma filter_nil_iff {A : Type} (f : A -> bool) (l : list A) :
  filter f l = [] <-> forall x, In x l -> f x = false.
Proof.
  induction l as [| a l IH]; simpl.
  - split; [intros _ x [] | reflexivity].
  - destruct (f a) eqn:E; split.
    + discriminate.
    + intros H. specialize (H a (or_introl eq_refl)). congruence.
    + intros H x [<- | Hx]; [assumption | now apply IH].
    + intros H. apply IH. intros x Hx. apply H. now right.
Qed.

Lemma filter_head_In {A : Type} (f : A -> bool) (l : list A) (x : A) (rest : list A) :
  filter f l = x :: rest -> In x l /\ f x = true.
Proof.
  intros E. apply filter_In. rewrite E. now left.
Qed.

(** What [generate_response] does once some match passes the gate. *)
Lemma generate_response_relevant (query : pystr) (results : QueryResponse) best rest :
  filter passes_gate (matches results) = best :: rest ->
  generate_response query (Some results)
  = match retrieved_context (matches results) with
    | Return context => generate_mechanical_response query context (score best)
    | Raise _ => error_apology
    end.
Proof.
  intros E. unfold generate_response, generate_response_try, retrieved_context.
  destruct (matches results) as [| m ms] eqn:Em; [discriminate |].
  cbn [truthy negb]. rewrite E.
  destruct (join_lines _); reflexivity.
Qed.

Lemma generate_response_low_confidence (query : pystr) (results : QueryResponse) :
  matches results <> [] ->
  filter passes_gate (matches results) = [] ->
  generate_response query (Some results) = generate_low_confidence_response query.
Proof.
  intros Hne E. unfold generate_response, generate_response_try.
  destruct (matches results) as [| m ms] eqn:Em; [congruence |].
  cbn [truthy negb]. now rewrite E.
Qed.

Lemma in_fixed_no_match : In no_match_response fixed_templates.
Proof. left. reflexivity. Qed.

Lemma in_fixed_low_motor : In low_confidence_motor fixed_templates.
Proof. right. left. reflexivity. Qed.

Lemma in_fixed_low_general : In low_confidence_general fixed_templates.
Proof. right. right. left. reflexivity. Qed.

Lemma in_fixed_apology : In error_apology fixed_templates.
Proof. right. right. right. left. reflexivity. Qed.

Lemma low_confidence_fixed (query : pystr) :
  generate_low_confidence_response query = low_confidence_motor
  \/ generate_low_confidence_response query = low_confidence_general.
Proof.
  unfold generate_low_confidence_response.
  destruct (any_in _ (str_lower query)); [left | right]; reflexivity.
Qed.

(** C1.  Whatever the query and the match set, the answer of
    [generate_response] is either one of the four fixed templates (no match,
    the two low-confidence checklists, the error apology), which interpolate
    nothing, or the category template chosen for the query, rendered from the
    context retrieved from a match set in which some match has a score
    above 0.70.  Conversely an answer that is a category response is only
    ever produced when some match passes that gate. *)
Theorem generate_response_confidence_gate
    (query : pystr) (context_matches : option QueryResponse) :
  (In (generate_response query context_matches) fixed_templates
   \/ exists results best context,
        context_matches = Some results
        /\ In best (matches results) /\ passes_gate best = true
        /\ retrieved_context (matches results) = Return context
        /\ generate_response query context_matches
           = render_category (classify_query (str_lower query))
                             (extract_technical_info context) query (score best))
  /\ (is_category_response (generate_response query context_matches) ->
      exists results best,
        context_matches = Some results
        /\ In best (matches results) /\ passes_gate best = true).
Proof.
  assert (Main :
    In (generate_response query context_matches) fixed_templates
    \/ exists results best context,
         context_matches = Some results
         /\ In best (matches results) /\ passes_gate best = true
         /\ retrieved_context (matches results) = Return context
         /\ generate_response query context_matches
            = render_category (classify_query (str_lower query))
                              (extract_technical_info context) query (score best)).
  { destruct context_matches as [results |]; [| left; exact in_fixed_no_match].
    destruct (matches results) as [| m0 ms] eqn:Em.
    { left. unfold generate_response, generate_response_try. rewrite Em.
      exact in_fixed_no_match. }
    destruct (filter passes_gate (matches results)) as [| best rest] eqn:Ef.
    - left. rewrite generate_response_low_confidence by (assumption || congruence).
      destruct (low_confidence_fixed query) as [-> | ->];
        [exact in_fixed_low_motor | exact in_fixed_low_general].
    - rewrite (generate_response_relevant query results _ _ Ef).
      destruct (filter_head_In _ _ _ _ Ef) as [Hin Hp].
      destruct (retrieved_context (matches results)) as [context | e] eqn:Ec.
      + right. exists results, best, context.
        rewrite generate_mechanical_response_classify. auto.
      + left. exact in_fixed_apology. }
  split; [exact Main |].
  intros Hcat. destruct Main as [Hfix | (results & best & context & E & Hin & Hp & _)].
  - exfalso. exact (fixed_template_not_category _ Hfix Hcat).
  - eauto.
Qed.

(** Two responses of different categories are never the same text. *)
Lemma render_category_injective c c' ti ti' q q' s s' :
  render_category c ti q s = render_category c' ti' q' s' -> c = c'.
Proof.
  intros E.
  destruct (render_category_header c ti q s) as [r Hr].
  destruct (render_category_header c' ti' q' s') as [r' Hr'].
  rewrite Hr, Hr' in E.
  assert (Dec : {c = c'} + {c <> c'}) by (decide equality).
  destruct Dec as [-> | Hne]; [reflexivity |].
  exfalso. exact (diverge_app _ _ r r' (headers_diverge _ _ Hne) E).
Qed.

(** C2.  [generate_mechanical_response] renders exactly one template, the
    one of the first category, in the order engine, brakes, lubrication,
    electrical, tires, transmission, one of whose keywords occurs in the
    lower-cased query, and the general template when none does; templates of
    different categories never coincide.  A query whose lower-cased text
    holds an engine keyword gets the engine template whatever else it
    holds, never the brakes template.  For a match set with a match above
    0.70 whose retrieved texts are strings, this is the answer of
    [generate_response]. *)
Theorem category_priority_first_wins (query context : pystr) (confidence : float) :
  generate_mechanical_response query context confidence
  = render_category (classify_query (str_lower query)) (extract_technical_info context)
                    query confidence
  /\ (forall c c' ti ti' q q' s s',
        render_category c ti q s = render_category c' ti' q' s' -> c = c')
  /\ (any_in motor_keywords (str_lower query) = true ->
      classify_query (str_lower query) = CEngine
      /\ generate_mechanical_response query context confidence
         = generate_motor_response_with_context (extract_technical_info context) confidence
      /\ forall ti s,
           generate_mechanical_response query context confidence
           <> generate_brakes_response_with_context ti s)
  /\ (forall results m,
        In m (matches results) -> passes_gate m = true ->
        retrieved_context (matches results) = Return context ->
        exists best,
          In best (matches results) /\ passes_gate best = true
          /\ generate_response query (Some results)
             = render_category (classify_query (str_lower query))
                               (extract_technical_info context) query (score best)).
Proof.
  split; [apply generate_mechanical_response_classify |].
  split; [exact render_category_injective |].
  split.
  - intros Hm.
    assert (Hc : classify_query (str_lower query) = CEngine).
    { unfold classify_query, priority. cbn [find category_keywords]. now rewrite Hm. }
    split; [exact Hc |].
    rewrite generate_mechanical_response_classify, Hc.
    split; [reflexivity |].
    intros ti s E.
    apply (render_category_injective CEngine CBrakes _ ti query query confidence s) in E.
    discriminate.
  - intros results m Hin Hp Hctx.
    destruct (filter passes_gate (matches results)) as [| best rest] eqn:Ef.
    + exfalso. rewrite filter_nil_iff in Ef. specialize (Ef m Hin). congruence.
    + destruct (filter_head_In _ _ _ _ Ef) as [Hb Hbp].
      exists best. split; [exact Hb |]. split; [exact Hbp |].
      rewrite (generate_response_relevant query results _ _ Ef), Hctx.
      apply generate_mechanical_response_classify.
Qed.

(** C3.  For two non-empty match sets in which every score is at most
    0.70, [generate_response] answers with the low-confidence responder,
    whose text is computed from the query alone: both runs give the same
    answer, one of the two fixed checklists, never a category response and
    so never a list built from match metadata. *)
Theorem low_confidence_depends_on_query_only
    (query : pystr) (results results' : QueryResponse) :
  matches results <> [] -> matches results' <> [] ->
  (forall m, In m (matches results) -> PrimFloat.leb (score m) 0.7%float = true) ->
  (forall m, In m (matches results') -> PrimFloat.leb (score m) 0.7%float = true) ->
  generate_response query (Some results) = generate_low_confidence_response query
  /\ generate_response query (Some results') = generate_response query (Some results)
  /\ (generate_response query (Some results) = low_confidence_motor
      \/ generate_response query (Some results) = low_confidence_general)
  /\ ~ is_category_response (generate_response query (Some results)).
Proof.
  intros Hne Hne' Hlow Hlow'.
  assert (G : forall r, matches r <> [] ->
              (forall m, In m (matches r) -> PrimFloat.leb (score m) 0.7%float = true) ->
              generate_response query (Some r) = generate_low_confidence_response query).
  { intros r Hr Hl. apply generate_response_low_confidence; [exact Hr |].
    apply filter_nil_iff. intros m Hm. apply gate_closed_below. now apply Hl. }
  rewrite (G results Hne Hlow), (G results' Hne' Hlow').
  split; [reflexivity |]. split; [reflexivity |].
  split; [apply low_confidence_fixed |].
  apply fixed_template_not_category.
  destruct (low_confidence_fixed query) as [-> | ->];
    [exact in_fixed_low_motor | exact in_fixed_low_general].
Qed.

(** ** The extractor *)

Lemma extract_line_classify (td : TechInfo) (line : pystr) :
  extract_line td line
  = if truthy (str_strip line)
    then add_line (classify_line (str_lower (str_strip line))) td (str_strip line)
    else td.
Proof.
  unfold extract_line, classify_line. cbn [find kind_keywords].
  destruct (truthy (str_strip line)); cbn [negb]; [| reflexivity].
  destruct (any_in procedure_keywords _); [reflexivity |].
  destruct (any_in specification_keywords _); [reflexivity |].
  destruct (any_in warning_keywords _); [reflexivity |].
  destruct (any_in tool_keywords _); reflexivity.
Qed.

Lemma lines_of_kind_cons (k : info_kind) (line : pystr) (lines : list pystr) :
  lines_of_kind k (line :: lines)
  = if match classify_line (str_lower line) with
       | Some k' => info_kind_eqb k k'
       | None => false
       end
    then line :: lines_of_kind k lines
    else lines_of_kind k lines.
Proof. reflexivity. Qed.

Lemma extract_fold (lines : list pystr) (td : TechInfo) :
  fold_left extract_line lines td
  = mkTechInfo
      (procedures td ++ lines_of_kind Procedures (filter truthy (map str_strip lines)))
      (specifications td ++ lines_of_kind Specifications (filter truthy (map str_strip lines)))
      (warnings td ++ lines_of_kind Warnings (filter truthy (map str_strip lines)))
      (tools td ++ lines_of_kind Tools (filter truthy (map str_strip lines))).
Proof.
  revert td. induction lines as [| line lines IH]; intros td.
  - destruct td; simpl. now rewrite !app_nil_r.
  - cbn [fold_left map filter]. rewrite IH, extract_line_classify. clear IH.
    destruct (truthy (str_strip line)); [| reflexivity].
    rewrite !lines_of_kind_cons.
    destruct (classify_line (str_lower (str_strip line))) as [[| | |] |];
      cbn [add_line info_kind_eqb procedures specifications warnings tools];
      rewrite <- ?app_assoc; reflexivity.
Qed.

Lemma extract_lines_of_kind (context : pystr) (k : info_kind) :
  items k (extract_technical_info context) = lines_of_kind k (content_lines context).
Proof.
  unfold extract_technical_info, content_lines. rewrite extract_fold.
  destruct k; reflexivity.
Qed.

Lemma extract_empty : extract_technical_info [] = mkTechInfo [] [] [] [].
Proof. reflexivity. Qed.

Lemma split_lines_single (p : pystr) : ~ In 10 p -> split_lines p = [p].
Proof.
  induction p as [| c p IH]; intros H; [reflexivity |].
  cbn [split_lines].
  destruct (N.eqb_spec c 10) as [-> | _]; [exfalso; apply H; now left |].
  rewrite IH; [reflexivity | intros Hin; apply H; now right].
Qed.

Lemma split_lines_cons (p rest : pystr) :
  ~ In 10 p -> split_lines (p ++ nl ++ rest) = p :: split_lines rest.
Proof.
  induction p as [| c p IH]; intros H; [reflexivity |].
  cbn [app split_lines].
  destruct (N.eqb_spec c 10) as [-> | _]; [exfalso; apply H; now left |].
  rewrite IH; [reflexivity | intros Hin; apply H; now right].
Qed.

(** C4.  [extract_technical_info] splits its input on line breaks, trims
    every line, drops the empty ones, and gives each remaining line, in its
    original case, to the first of procedures, specifications, warnings,
    tools one of whose keywords occurs in the lower-cased line: every output
    sequence holds exactly the lines classified to it, in order, so a line
    that matches no keyword set is in none.  The empty input gives four
    empty sequences, and a text of four lines, one classified to each kind,
    gives exactly that one line in each sequence. *)
Theorem extract_technical_info_classifies (context : pystr) :
  (forall k, items k (extract_technical_info context)
             = lines_of_kind k (content_lines context))
  /\ extract_technical_info [] = mkTechInfo [] [] [] []
  /\ (forall p s w t : pystr,
        ~ In 10 p -> ~ In 10 s -> ~ In 10 w -> ~ In 10 t ->
        str_strip p <> [] -> str_strip s <> [] -> str_strip w <> [] -> str_strip t <> [] ->
        classify_line (str_lower (str_strip p)) = Some Procedures ->
        classify_line (str_lower (str_strip s)) = Some Specifications ->
        classify_line (str_lower (str_strip w)) = Some Warnings ->
        classify_line (str_lower (str_strip t)) = Some Tools ->
        extract_technical_info (p ++ nl ++ s ++ nl ++ w ++ nl ++ t)
        = mkTechInfo [str_strip p] [str_strip s] [str_strip w] [str_strip t]).
Proof.
  split; [intros k; apply extract_lines_of_kind |].
  split; [exact extract_empty |].
  intros p s w t Hp Hs Hw Ht Np Ns Nw Nt Cp Cs Cw Ct.
  unfold extract_technical_info.
  rewrite (split_lines_cons p _ Hp), (split_lines_cons s _ Hs), (split_lines_cons w _ Hw),
    (split_lines_single t Ht).
  cbn [fold_left]. rewrite !extract_line_classify.
  apply truthy_true in Np, Ns, Nw, Nt.
  rewrite Np, Cp. cbn [add_line procedures specifications warnings tools app].
  rewrite Ns, Cs. cbn [add_line procedures specifications warnings tools app].
  rewrite Nw, Cw. cbn [add_line procedures specifications warnings tools app].
  rewrite Nt, Ct. cbn [add_line procedures specifications warnings tools app].
  reflexivity.
Qed.

(** ** Matches without a text *)

Lemma has_text_false (m : Match) :
  metadata m = None \/ (exists d, metadata m = Some d /\ dict_get (u8 "text") d = None) ->
  has_text m = false.
Proof.
  unfold has_text, dict_contains.
  intros [-> | (d & -> & ->)]; [reflexivity | apply andb_false_r].
Qed.

Lemma join_values_strings (parts : list meta_value) :
  (forall v, In v parts -> exists s, v = MStr s) ->
  exists ss, join_values parts = Return ss.
Proof.
  induction parts as [| v parts IH]; intros H; [now exists [] |].
  destruct (H v (or_introl eq_refl)) as [s ->].
  destruct IH as [ss Hss]; [intros v Hv; apply H; now right |].
  exists (s :: ss). simpl. now rewrite Hss.
Qed.

Lemma In_firstn {A : Type} (n : nat) (l : list A) (x : A) : In x (firstn n l) -> In x l.
Proof.
  revert l. induction n as [| n IH]; intros [| a l]; simpl; try tauto.
  intros [-> | H]; [now left | right; now apply IH].
Qed.

Lemma skeleton_when_empty (c : category) (tls : list pystr) (query : pystr) (confidence : float) :
  render_category c (mkTechInfo [] [] [] tls) query confidence = skeleton c confidence.
Proof.
  rewrite render_category_layout. unfold skeleton.
  destruct c; unfold render_layout, layout;
    cbn [map List.concat render_segment items procedures specifications warnings];
    rewrite ?app_nil_r, ?app_nil_l; rewrite <- ?app_assoc; reflexivity.
Qed.

(** C10.  A match past the gate whose metadata is absent, or holds no
    [text] field, is skipped when the context is built: such matches never
    make the retrieval fail, and when no match past the gate carries a text
    the context is empty, nothing is extracted, and the answer is the bare
    template of the query's category, not the error apology. *)
Theorem missing_text_is_skipped (query : pystr) (results : QueryResponse) :
  ((forall m, In m (matches results) -> passes_gate m = true -> has_text m = true ->
              exists s, metadata_text m = MStr s) ->
   exists context, retrieved_context (matches results) = Return context)
  /\ ((exists m, In m (matches results) /\ passes_gate m = true) ->
      (forall m, In m (matches results) -> passes_gate m = true ->
                 metadata m = None
                 \/ (exists d, metadata m = Some d /\ dict_get (u8 "text") d = None)) ->
      exists best,
        In best (matches results) /\ passes_gate best = true
        /\ retrieved_context (matches results) = Return []
        /\ extract_technical_info [] = mkTechInfo [] [] [] []
        /\ generate_response query (Some results)
           = skeleton (classify_query (str_lower query)) (score best)
        /\ generate_response query (Some results) <> error_apology).
Proof.
  split.
  - intros H. unfold retrieved_context, join_lines.
    destruct (join_values_strings
                (map metadata_text
                     (filter has_text (firstn 3 (filter passes_gate (matches results))))))
      as [ss Hss].
    + intros v Hv. apply in_map_iff in Hv as (m & <- & Hm).
      apply filter_In in Hm as [Hm Ht].
      apply In_firstn, filter_In in Hm as [Hm Hg].
      now apply H.
    + rewrite Hss. eauto.
  - intros (m & Hin & Hp) Hno.
    destruct (filter passes_gate (matches results)) as [| best rest] eqn:Ef.
    { exfalso. rewrite filter_nil_iff in Ef. specialize (Ef m Hin). congruence. }
    destruct (filter_head_In _ _ _ _ Ef) as [Hb Hbp].
    assert (Hctx : retrieved_context (matches results) = Return []).
    { unfold retrieved_context. rewrite Ef.
      replace (filter has_text (firstn 3 (best :: rest))) with (@nil Match); [reflexivity |].
      symmetry. apply filter_nil_iff. intros x Hx.
      apply In_firstn in Hx. rewrite <- Ef in Hx. apply filter_In in Hx as [Hx Hg].
      apply has_text_false. now apply Hno. }
    assert (Hresp : generate_response query (Some results)
                    = skeleton (classify_query (str_lower query)) (score best)).
    { rewrite (generate_response_relevant query results _ _ Ef), Hctx.
      rewrite generate_mechanical_response_classify, extract_empty.
      apply skeleton_when_empty. }
    exists best. repeat split; try assumption; try exact extract_empty.
    rewrite Hresp. intros E.
    apply (fixed_template_not_category error_apology in_fixed_apology).
    exists (classify_query (str_lower query)), (mkTechInfo [] [] [] []), query, (score best).
    rewrite skeleton_when_empty. now symmetry.
Qed.

(** ** What a template shows *)

Lemma startswith_app (x rest : pystr) : startswith x (x ++ rest) = true.
Proof.
  induction x as [| c x IH]; [reflexivity |].
  simpl. now rewrite N.eqb_refl.
Qed.

Lemma str_in_app_r (x a s : pystr) : str_in x s = true -> str_in x (a ++ s) = true.
Proof.
  intros H. induction a as [| c a IH]; [exact H |].
  cbn [app str_in]. rewrite IH. apply orb_true_r.
Qed.

Lemma str_in_middle (x a b : pystr) : str_in x (a ++ x ++ b) = true.
Proof.
  apply str_in_app_r. destruct x as [| c x]; [now destruct b |].
  cbn [app str_in].
  change (c :: x ++ b) with ((c :: x) ++ b). now rewrite startswith_app.
Qed.

Lemma startswith_app_l (x s b : pystr) :
  startswith x s = true -> startswith x (s ++ b) = true.
Proof.
  revert s. induction x as [| d x IHx]; intros [| e s'] H; try reflexivity; try discriminate.
  cbn [app startswith] in *.
  apply andb_true_iff in H as [H1 H]. rewrite H1. now apply IHx.
Qed.

Lemma str_in_app_l (x s b : pystr) : str_in x s = true -> str_in x (s ++ b) = true.
Proof.
  induction s as [| c s IH]; intros H.
  - destruct x; [now destruct b | discriminate].
  - cbn [str_in] in H. apply orb_true_iff in H as [H | H].
    + apply (startswith_app_l _ _ b) in H.
      cbn [app] in *. cbn [str_in]. now rewrite H.
    + cbn [app str_in]. rewrite (IH H). apply orb_true_r.
Qed.

Lemma str_in_concat (x : pystr) (parts : list pystr) (part : pystr) :
  In part parts -> str_in x part = true -> str_in x (List.concat parts) = true.
Proof.
  induction parts as [| q parts IH]; intros Hin Hx; [destruct Hin |].
  cbn [List.concat]. destruct Hin as [<- | Hin].
  - now apply str_in_app_l.
  - apply str_in_app_r. now apply IH.
Qed.

Lemma enumerate_In {A : Type} (l : list A) (x : A) (start : nat) :
  In x l -> exists i, In (i, x) (enumerate start l).
Proof.
  revert start. induction l as [| a l IH]; intros start H; [destruct H |].
  destruct H as [<- | H].
  - exists start. now left.
  - destruct (IH (S start) H) as [i Hi]. exists i. now right.
Qed.

Lemma render_items_shows (style : list_style) (shown : list pystr) (x : pystr) :
  In x shown -> str_in x (render_items style shown) = true.
Proof.
  intros H. destruct style; unfold render_items.
  - apply str_in_concat with (part := u8 "• " ++ x ++ nl); [| apply str_in_middle].
    apply in_map_iff. now exists x.
  - destruct (enumerate_In shown x 1 H) as [i Hi].
    apply str_in_concat with (part := str_of_nat i ++ u8 ". " ++ x ++ nl).
    + apply in_map_iff. now exists (i, x).
    + apply str_in_app_r, str_in_middle.
Qed.

Lemma render_segment_shows (ti : TechInfo) k lead heading style limit trail (x : pystr) :
  In x (firstn limit (items k ti)) ->
  str_in x (render_segment ti (Listing k lead heading style limit trail)) = true.
Proof.
  intros H. cbn [render_segment].
  destruct (items k ti) as [| a l] eqn:E; [now destruct limit |].
  do 3 apply str_in_app_r. apply str_in_app_l. now apply render_items_shows.
Qed.

Lemma info_kind_eqb_eq (a b : info_kind) : info_kind_eqb a b = true -> a = b.
Proof. destruct a, b; simpl; congruence. Qed.

Lemma display_limit_listing (k : info_kind) (l : list segment) (n : nat) :
  display_limit k l = S n ->
  exists lead heading style trail, In (Listing k lead heading style (S n) trail) l.
Proof.
  induction l as [| [text | source lead heading style limit trail] l IH]; cbn [display_limit].
  - discriminate.
  - intros H. destruct (IH H) as (a & b & c & d & Hin). exists a, b, c, d. now right.
  - destruct (info_kind_eqb k source) eqn:E.
    + intros ->. apply info_kind_eqb_eq in E as <-.
      exists lead, heading, style, trail. now left.
    + intros H. destruct (IH H) as (a & b & c & d & Hin). exists a, b, c, d. now right.
Qed.

Lemma render_listing_truncated (ti ti' : TechInfo) k lead heading style limit trail :
  firstn limit (items k ti) = firstn limit (items k ti') -> limit <> 0%nat ->
  render_segment ti (Listing k lead heading style limit trail)
  = render_segment ti' (Listing k lead heading style limit trail).
Proof.
  intros H Hl. cbn [render_segment]. rewrite <- H.
  destruct limit as [| n]; [congruence |].
  destruct (items k ti), (items k ti'); try reflexivity; discriminate.
Qed.

Lemma render_layout_truncated (c : category) (ti ti' : TechInfo) :
  (forall k, firstn (display_limit k (layout c)) (items k ti)
             = firstn (display_limit k (layout c)) (items k ti')) ->
  render_layout ti (layout c) = render_layout ti' (layout c).
Proof.
  intros H.
  pose proof (H Procedures) as Hp. pose proof (H Specifications) as Hs.
  pose proof (H Warnings) as Hw. clear H.
  destruct c; cbn [display_limit layout info_kind_eqb] in Hp, Hs, Hw;
    unfold render_layout, layout; cbn [map List.concat];
    repeat match goal with
      | |- context [render_segment ti (Listing ?k ?a ?b ?s ?n ?t)] =>
          rewrite (render_listing_truncated ti ti' k a b s n t) by (assumption || discriminate)
      end;
    reflexivity.
Qed.

(** C5, as amended.  Every template is its own layout: it shows only the
    sequences its layout lists, each under its heading and cut at that
    template's own limit - engine: 3 specifications, 3 numbered procedures,
    2 warnings; brakes, transmission and general: 3 procedures and 2
    specifications; lubrication and electrical: 3 specifications and 2
    procedures; tires: 3 specifications - so that warnings appear in the
    engine template only and tools in none.  Every item within a limit
    occurs in the response, items beyond it and sequences not listed do not
    influence it, and a listed sequence that is empty is left out with its
    heading, down to the bare skeleton when all are empty. *)
Theorem templates_follow_their_layout
    (c : category) (tech_info : TechInfo) (query : pystr) (confidence : float) :
  render_category c tech_info query confidence
  = render_layout tech_info (layout c) ++ disclaimer c confidence
  /\ map display_limits all_categories
     = [(3, 3, 2, 0); (2, 3, 0, 0); (3, 2, 0, 0); (3, 2, 0, 0);
        (3, 0, 0, 0); (2, 3, 0, 0); (2, 3, 0, 0)]%nat
  /\ (forall k x,
        In x (firstn (display_limit k (layout c)) (items k tech_info)) ->
        str_in x (render_category c tech_info query confidence) = true)
  /\ (forall tech_info',
        (forall k, firstn (display_limit k (layout c)) (items k tech_info)
                   = firstn (display_limit k (layout c)) (items k tech_info')) ->
        render_category c tech_info query confidence
        = render_category c tech_info' query confidence)
  /\ (procedures tech_info = [] -> specifications tech_info = [] -> warnings tech_info = [] ->
      render_category c tech_info query confidence = skeleton c confidence).
Proof.
  split; [apply render_category_layout |].
  split; [reflexivity |].
  split; [| split].
  - intros k x Hx. rewrite render_category_layout. apply str_in_app_l.
    destruct (display_limit k (layout c)) as [| n] eqn:El; [destruct Hx |].
    destruct (display_limit_listing k (layout c) n El) as (a & b & st & d & Hin).
    unfold render_layout.
    apply str_in_concat
      with (part := render_segment tech_info (Listing k a b st (S n) d)).
    + apply in_map_iff. eauto.
    + now apply render_segment_shows.
  - intros ti' H. rewrite !render_category_layout.
    now rewrite (render_layout_truncated c tech_info ti' H).
  - destruct tech_info as [procs specs warns tls]. cbn [procedures specifications warnings].
    intros -> -> ->. apply skeleton_when_empty.
Qed.

(** ** The chat operation without matches *)




(** ** The speech fallback chain *)

Lemma tier_run (polly : PollyClient) (request : PollyRequest) (engine : pystr)
    (calls : list PollyRequest) :
  synthesize_tier polly request engine calls
  = (match tier_outcome polly request with
     | Return audio_data => Return (audio_answer audio_data engine)
     | Raise e => Raise e
     end, calls ++ [request]).
Proof.
  unfold synthesize_tier, bind, synthesize_speech, lift, ret, tier_outcome, audio_answer.
  destruct (polly request) as [response | e]; [| reflexivity].
  destruct (AudioStream_read response); reflexivity.
Qed.

(** What [speak_text] answers, and which calls it makes, once the
    credentials are present and the client is built. *)
Lemma speak_text_chain (env : SpeechEnv) (polly : PollyClient) (text : pystr) :
  text <> [] -> speech_ready env polly ->
  speak_text env text
  = match tier_outcome polly (generative_request text) with
    | Return audio => (audio_answer audio (u8 "generative"), [generative_request text])
    | Raise e1 =>
        if is_service_error e1 then
          match tier_outcome polly (neural_request text) with
          | Return audio =>
              (audio_answer audio (u8 "neural"),
               [generative_request text; neural_request text])
          | Raise e2 =>
              if is_service_error e2 then
                match tier_outcome polly (standard_request text) with
                | Return audio =>
                    (audio_answer audio (u8 "standard"), tier_requests text)
                | Raise e3 =>
                    (fallback_signal text (Some (str_exn e2)), tier_requests text)
                end
              else (fallback_signal text (Some (str_exn e2)),
                    [generative_request text; neural_request text])
          end
        else (fallback_signal text (Some (str_exn e1)), [generative_request text])
    end.
Proof.
  intros Hne (Hk & Hs & Hc).
  unfold speak_text, speak_text_try. apply truthy_true in Hne.
  rewrite Hne, Hk, Hs, Hc. cbn [negb orb].
  unfold try_except at 1. unfold bind at 1. unfold lift at 1.
  unfold try_except at 1. rewrite tier_run.
  destruct (tier_outcome polly (generative_request text)) as [a1 | e1]; [reflexivity |].
  destruct (is_service_error e1); [| reflexivity].
  unfold try_except at 1. rewrite tier_run.
  destruct (tier_outcome polly (neural_request text)) as [a2 | e2]; [reflexivity |].
  destruct (is_service_error e2); [| reflexivity].
  unfold try_except at 1. rewrite tier_run.
  destruct (tier_outcome polly (standard_request text)) as [a3 | e3]; reflexivity.
Qed.

(** Decomposes the hypotheses about the outcomes of the tiers. *)
Ltac chain_facts :=
  repeat match goal with
    | H : exists _, _ |- _ => destruct H
    | H : _ /\ _ |- _ => destruct H
    | H : Raise _ = Raise _ |- _ => injection H as H; subst
    | H : Return _ = Return _ |- _ => injection H as H; subst
    end.

(** C7.  With credentials and a client, [speak_text] calls the synthesis
    service for the generative, the neural and the standard request in that
    order, each at most once; the neural tier is attempted exactly when the
    generative tier raised a service error, the standard tier exactly when
    the neural tier raised one too; the first tier that succeeds gives the
    audio answer tagged with its own engine.  When tiers 1 and 2 raise
    service errors and tier 3 succeeds, three calls are made and the answer
    is tagged with the engine of tier 3. *)
Theorem speech_tiers_in_order (env : SpeechEnv) (polly : PollyClient) (text : pystr) :
  text <> [] -> speech_ready env polly ->
  let answer := fst (speak_text env text) in
  let calls := snd (speak_text env text) in
  let tier1 := tier_outcome polly (generative_request text) in
  let tier2 := tier_outcome polly (neural_request text) in
  let tier3 := tier_outcome polly (standard_request text) in
  (exists k, (k < 3)%nat /\ calls = firstn (S k) (tier_requests text))
  /\ ((2 <= List.length calls)%nat <->
      exists e1, tier1 = Raise e1 /\ is_service_error e1 = true)
  /\ ((3 <= List.length calls)%nat <->
      exists e1 e2, tier1 = Raise e1 /\ is_service_error e1 = true
                    /\ tier2 = Raise e2 /\ is_service_error e2 = true)
  /\ (forall audio, tier1 = Return audio ->
        answer = audio_answer audio (u8 "generative") /\ List.length calls = 1%nat)
  /\ (forall e1 audio, tier1 = Raise e1 -> is_service_error e1 = true ->
        tier2 = Return audio ->
        answer = audio_answer audio (u8 "neural") /\ List.length calls = 2%nat)
  /\ (forall e1 e2 audio, tier1 = Raise e1 -> is_service_error e1 = true ->
        tier2 = Raise e2 -> is_service_error e2 = true ->
        tier3 = Return audio ->
        answer = audio_answer audio (u8 "standard")
        /\ calls = tier_requests text /\ List.length calls = 3%nat).
Proof.
  intros Hne Hready. cbv zeta.
  rewrite (speak_text_chain env polly text Hne Hready).
  destruct (tier_outcome polly (generative_request text)) as [a1 | e1];
    [| destruct (is_service_error e1) eqn:S1;
       [destruct (tier_outcome polly (neural_request text)) as [a2 | e2];
        [| destruct (is_service_error e2) eqn:S2;
           [destruct (tier_outcome polly (standard_request text)) as [a3 | e3] |]] |]].
  all: cbn [fst snd List.length tier_requests].
  all: split;
    [ first [ exists 0%nat; split; [lia | reflexivity]
            | exists 1%nat; split; [lia | reflexivity]
            | exists 2%nat; split; [lia | reflexivity] ] |].
  all: repeat split; intros; chain_facts; try discriminate; try congruence; try lia; eauto.
  all: exists e1, e2; auto.
Qed.

Lemma speak_without_credentials (env : SpeechEnv) (text : pystr) :
  text <> [] ->
  missing (AWS_ACCESS_KEY env) = true \/ missing (AWS_SECRET_KEY env) = true ->
  speak_text env text = (fallback_signal text None, []).
Proof.
  intros Hne Hm. unfold speak_text, speak_text_try. apply truthy_true in Hne. rewrite Hne.
  cbn [negb].
  replace (missing (AWS_ACCESS_KEY env) || missing (AWS_SECRET_KEY env)) with true;
    [reflexivity |].
  symmetry. apply orb_true_iff. exact Hm.
Qed.

(** C9, as amended.  In tiers 1 and 2 only a service error moves the chain
    on: any other exception raised there ends it, no later tier is called,
    and the outer handler turns it into the client-side fallback signal
    that carries the text and that exception's message.  In tier 3 every
    exception, of the service or not, gives the client-side fallback
    signal with the text, after the three calls. *)
Theorem unexpected_errors_end_the_chain
    (env : SpeechEnv) (polly : PollyClient) (text : pystr) :
  text <> [] -> speech_ready env polly ->
  (forall e, tier_outcome polly (generative_request text) = Raise e ->
             is_service_error e = false ->
             speak_text env text
             = (fallback_signal text (Some (str_exn e)), [generative_request text]))
  /\ (forall e1 e, tier_outcome polly (generative_request text) = Raise e1 ->
                  is_service_error e1 = true ->
                  tier_outcome polly (neural_request text) = Raise e ->
                  is_service_error e = false ->
                  speak_text env text
                  = (fallback_signal text (Some (str_exn e)),
                     [generative_request text; neural_request text]))
  /\ (forall e1 e2 e, tier_outcome polly (generative_request text) = Raise e1 ->
                     is_service_error e1 = true ->
                     tier_outcome polly (neural_request text) = Raise e2 ->
                     is_service_error e2 = true ->
                     tier_outcome polly (standard_request text) = Raise e ->
                     is_client_fallback (fst (speak_text env text)) = true
                     /\ dict_get (u8 "text") (fst (fst (speak_text env text)))
                        = Some (JStr text)
                     /\ snd (speak_text env text) = tier_requests text).
Proof.
  intros Hne Hready. repeat split; intros;
    rewrite (speak_text_chain env polly text Hne Hready);
    repeat match goal with
      | H : tier_outcome _ _ = _ |- _ => rewrite H; clear H
      | H : is_service_error _ = _ |- _ => rewrite H; clear H
      end;
    try reflexivity; vm_compute; reflexivity.
Qed.

(** ** Speech markup *)

Lemma lstrip_app (a rest : pystr) : lstrip a <> [] -> lstrip (a ++ rest) = lstrip a ++ rest.
Proof.
  induction a as [| c a IH]; intros H; [now contradiction H |].
  cbn [app lstrip] in *. destruct (isspace c); [now apply IH | reflexivity].
Qed.

Lemma rstrip_app (rest b : pystr) : rstrip b <> [] -> rstrip (rest ++ b) = rest ++ rstrip b.
Proof.
  unfold rstrip. intros H. rewrite rev_app_distr, lstrip_app.
  - now rewrite rev_app_distr, rev_involutive.
  - intros E. apply H. now rewrite E.
Qed.

Lemma strip_sandwich (a x b : pystr) :
  lstrip a <> [] -> rstrip b <> [] ->
  str_strip (a ++ x ++ b) = lstrip a ++ x ++ rstrip b.
Proof.
  intros Ha Hb. unfold str_strip. rewrite (lstrip_app a (x ++ b) Ha).
  rewrite app_assoc, (rstrip_app (lstrip a ++ x) b Hb). now rewrite <- app_assoc.
Qed.

Lemma endswith_app (suffix a b : pystr) :
  endswith suffix b = true -> endswith suffix (a ++ b) = true.
Proof.
  unfold endswith. intros H. rewrite rev_app_distr. now apply startswith_app_l.
Qed.

(** X1.  For every text the markup of either tier is the fixed prologue of
    that tier, the text annotated by [improve_pronunciation] and then
    [add_natural_pauses], and the fixed epilogue: trimming removes the
    outer line breaks and indentation only, so the markup always opens
    with the [speak] tag and closes with its end tag, whatever white space
    the text begins or ends with. *)
Theorem ssml_is_bracketed (text : pystr) :
  create_generative_ssml text
  = generative_prologue ++ add_natural_pauses (improve_pronunciation text)
    ++ generative_epilogue
  /\ create_ssml_text text
     = neural_prologue ++ add_natural_pauses (improve_pronunciation text) ++ neural_epilogue
  /\ startswith (u8 "<speak>") (create_generative_ssml text) = true
  /\ endswith (u8 "</speak>") (create_generative_ssml text) = true
  /\ startswith (u8 "<speak>") (create_ssml_text text) = true
  /\ endswith (u8 "</speak>") (create_ssml_text text) = true.
Proof.
  assert (G : create_generative_ssml text
              = generative_prologue ++ add_natural_pauses (improve_pronunciation text)
                ++ generative_epilogue).
  { unfold create_generative_ssml. cbv zeta.
    transitivity (str_strip ((nl ++ indent 4 ++ generative_prologue)
                             ++ add_natural_pauses (improve_pronunciation text)
                             ++ (generative_epilogue ++ nl ++ indent 4))).
    - unfold generative_prologue, generative_epilogue. rewrite <- !app_assoc. reflexivity.
    - assert (L : lstrip (nl ++ indent 4 ++ generative_prologue) = generative_prologue)
        by (vm_compute; reflexivity).
      assert (R : rstrip (generative_epilogue ++ nl ++ indent 4) = generative_epilogue)
        by (vm_compute; reflexivity).
      rewrite strip_sandwich, L, R; [reflexivity | |].
      + rewrite L. vm_compute. discriminate.
      + rewrite R. vm_compute. discriminate. }
  assert (N : create_ssml_text text
              = neural_prologue ++ add_natural_pauses (improve_pronunciation text)
                ++ neural_epilogue).
  { unfold create_ssml_text. cbv zeta.
    transitivity (str_strip ((nl ++ indent 4 ++ neural_prologue)
                             ++ add_natural_pauses (improve_pronunciation text)
                             ++ (neural_epilogue ++ nl ++ indent 4))).
    - unfold neural_prologue, neural_epilogue. rewrite <- !app_assoc. reflexivity.
    - assert (L : lstrip (nl ++ indent 4 ++ neural_prologue) = neural_prologue)
        by (vm_compute; reflexivity).
      assert (R : rstrip (neural_epilogue ++ nl ++ indent 4) = neural_epilogue)
        by (vm_compute; reflexivity).
      rewrite strip_sandwich, L, R; [reflexivity | |].
      + rewrite L. vm_compute. discriminate.
      + rewrite R. vm_compute. discriminate. }
  split; [exact G |]. split; [exact N |]. rewrite G, N.
  split; [apply startswith_app_l; vm_compute; reflexivity |].
  split; [rewrite app_assoc; apply endswith_app; vm_compute; reflexivity |].
  split; [apply startswith_app_l; vm_compute; reflexivity |].
  rewrite app_assoc. apply endswith_app. vm_compute. reflexivity.
Qed.

Lemma str_replace_absent (old new s : pystr) :
  str_in old s = false -> str_replace old new s = s.
Proof.
  unfold str_replace. induction s as [| c s IH]; intros H; [reflexivity |].
  cbn [str_in] in H. apply orb_false_iff in H as [H1 H2].
  cbn [replace_from]. rewrite H1. now rewrite (IH H2).
Qed.

Lemma flat_map_flat_map {A B C : Type} (f : A -> list B) (g : B -> list C) (l : list A) :
  flat_map g (flat_map f l) = flat_map (fun x => flat_map g (f x)) l.
Proof.
  induction l as [| x l IH]; [reflexivity |].
  cbn [flat_map]. now rewrite flat_map_app, IH.
Qed.

Lemma flat_map_singletons {A : Type} (f : A -> list A) (l : list A) :
  (forall x, In x l -> f x = [x]) -> flat_map f l = l.
Proof.
  induction l as [| x l IH]; intros H; [reflexivity |].
  cbn [flat_map]. rewrite (H x (or_introl eq_refl)), IH; [reflexivity |].
  intros y Hy. apply H. now right.
Qed.

Lemma pause_passes_pointwise (c : N) :
  flat_map (fun c => if existsb (N.eqb c) (u8 ":") then c :: break_tag (u8 "400ms") else [c])
    (flat_map (fun c => if existsb (N.eqb c) (u8 ",") then c :: break_tag (u8 "300ms") else [c])
       (if existsb (N.eqb c) (u8 ".!?") then c :: break_tag (u8 "700ms") else [c]))
  = pause_mark c.
Proof.
  unfold pause_mark.
  replace (u8 ".!?") with [46; 33; 63] by (vm_compute; reflexivity).
  replace (u8 ",") with [44] by (vm_compute; reflexivity).
  replace (u8 ":") with [58] by (vm_compute; reflexivity).
  cbn [existsb].
  destruct (N.eqb_spec c 46) as [-> | H1]; [vm_compute; reflexivity |].
  destruct (N.eqb_spec c 33) as [-> | H2]; [vm_compute; reflexivity |].
  destruct (N.eqb_spec c 63) as [-> | H3]; [vm_compute; reflexivity |].
  cbn [orb flat_map app existsb].
  destruct (N.eqb_spec c 44) as [-> | H4]; [vm_compute; reflexivity |].
  cbn [orb flat_map app existsb].
  destruct (N.eqb_spec c 58) as [-> | H5]; [vm_compute; reflexivity |].
  reflexivity.
Qed.

(** X2.  The three punctuation passes of [add_natural_pauses] amount to
    one pass over the original text: every code point of the text gets the
    pause of its own kind and the inserted break tags are never themselves
    given a pause; the pause before the warning sign is then inserted into
    that result. *)
Theorem pauses_in_one_pass (text : pystr) :
  add_natural_pauses text
  = str_replace (u8 "⚠️") (break_tag (u8 "500ms") ++ u8 "⚠️") (flat_map pause_mark text).
Proof.
  unfold add_natural_pauses, insert_after. cbv zeta.
  rewrite !flat_map_flat_map. f_equal.
  apply flat_map_ext. intros c. rewrite <- flat_map_flat_map. apply pause_passes_pointwise.
Qed.

Lemma pause_mark_plain (c : N) : ~ In c pause_triggers -> pause_mark c = [c].
Proof.
  unfold pause_mark, pause_triggers.
  replace (u8 ".!?,:") with [46; 33; 63; 44; 58] by (vm_compute; reflexivity).
  replace (u8 ".!?") with [46; 33; 63] by (vm_compute; reflexivity).
  replace (u8 ",") with [44] by (vm_compute; reflexivity).
  replace (u8 ":") with [58] by (vm_compute; reflexivity).
  intros H. cbn [existsb In] in *.
  destruct (N.eqb_spec c 46); [exfalso; apply H; auto |].
  destruct (N.eqb_spec c 33); [exfalso; apply H; auto |].
  destruct (N.eqb_spec c 63); [exfalso; apply H; auto |].
  destruct (N.eqb_spec c 44); [exfalso; apply H; auto |].
  destruct (N.eqb_spec c 58); [exfalso; apply H; auto 6 |].
  reflexivity.
Qed.

Lemma improve_pronunciation_absent (words : list pystr) (wrap : pystr -> pystr) (text : pystr) :
  (forall word, In word words -> str_in word text = false) ->
  fold_left (fun text word => str_replace word (wrap word) text) words text = text.
Proof.
  induction words as [| w words IH]; intros H; [reflexivity |].
  cbn [fold_left]. rewrite (str_replace_absent w (wrap w) text (H w (or_introl eq_refl))).
  apply IH. intros word Hw. apply H. now right.
Qed.

(** X3.  A text that holds none of the twelve terms of the pronunciation
    dictionary, none of the punctuation marks [. ! ? , :] and no warning
    sign goes through the markup builders unannotated: the markup of
    either tier is the prologue, the text verbatim, and the epilogue. *)
Theorem plain_text_is_not_annotated (text : pystr) :
  (forall word, In word improvements -> str_in word text = false) ->
  (forall c, In c text -> ~ In c pause_triggers) ->
  str_in (u8 "⚠️") text = false ->
  improve_pronunciation text = text
  /\ add_natural_pauses text = text
  /\ create_generative_ssml text = generative_prologue ++ text ++ generative_epilogue
  /\ create_ssml_text text = neural_prologue ++ text ++ neural_epilogue.
Proof.
  intros Hw Hc He.
  assert (I : improve_pronunciation text = text).
  { unfold improve_pronunciation.
    exact (improve_pronunciation_absent improvements
             (fun word => u8 "<emphasis level=" ++ dquote ++ u8 "moderate" ++ dquote
                          ++ u8 ">" ++ word ++ u8 "</emphasis>") text Hw). }
  assert (P : add_natural_pauses text = text).
  { rewrite pauses_in_one_pass.
    rewrite (flat_map_singletons pause_mark text)
      by (intros c Hin; apply pause_mark_plain; now apply Hc).
    now apply str_replace_absent. }
  destruct (ssml_is_bracketed text) as (G & N & _).
  rewrite G, N, I, P. auto.
Qed.

(** ** Every answer of the speech operation *)

Lemma speak_empty_text (env : SpeechEnv) :
  speak_text env [] = (([(u8 "error", JStr (u8 "No text provided"))], 400%nat), []).
Proof. reflexivity. Qed.

Lemma speak_client_failure (env : SpeechEnv) (text : pystr) (e : exn) :
  text <> [] ->
  missing (AWS_ACCESS_KEY env) = false -> missing (AWS_SECRET_KEY env) = false ->
  boto3_client env = Raise e ->
  speak_text env text = (fallback_signal text (Some (str_exn e)), []).
Proof.
  intros Hne Hk Hs Hc. unfold speak_text, speak_text_try. apply truthy_true in Hne.
  rewrite Hne, Hk, Hs, Hc. reflexivity.
Qed.

Lemma audio_answer_not_fallback (audio : list N) (engine : pystr) :
  is_client_fallback (audio_answer audio engine) = false.
Proof. vm_compute. reflexivity. Qed.

Lemma fallback_signal_is_fallback (text : pystr) (error : option pystr) :
  is_client_fallback (fallback_signal text error) = true.
Proof. destruct error; vm_compute; reflexivity. Qed.

(** X4.  Whatever the credentials, the client and the behaviour of the
    synthesis service, [speak_text] makes at most three remote calls, an
    initial run of the three tier requests, and makes none exactly when
    the text is empty, a credential is missing or the client cannot be
    built.  An empty text is answered with status 400; every other text is
    answered with status 200 and either audio tagged with one of the three
    engines, after at least one call, or the client-side fallback signal
    carrying the text - never both, never a failure status. *)
Theorem speak_text_answers (env : SpeechEnv) (text : pystr) :
  let answer := fst (speak_text env text) in
  let calls := snd (speak_text env text) in
  (exists k, (k <= 3)%nat /\ calls = firstn k (tier_requests text))
  /\ (calls = [] <->
      text = [] \/ missing (AWS_ACCESS_KEY env) = true \/ missing (AWS_SECRET_KEY env) = true
      \/ exists e, boto3_client env = Raise e)
  /\ (text = [] -> answer = ([(u8 "error", JStr (u8 "No text provided"))], 400%nat))
  /\ (text <> [] ->
      snd answer = 200%nat
      /\ ((exists audio engine,
             In engine engine_tags /\ answer = audio_answer audio engine
             /\ is_client_fallback answer = false /\ calls <> [])
          \/ (exists error,
                answer = fallback_signal text error /\ is_client_fallback answer = true))).
Proof.
  cbv zeta.
  destruct text as [| c text'] eqn:Et.
  { rewrite speak_empty_text. cbn [fst snd].
    split; [exists 0%nat; split; [lia | reflexivity] |].
    split; [split; auto |].
    split; [reflexivity |].
    intros H. now contradiction H. }
  rewrite <- Et. assert (Hne : text <> []) by (rewrite Et; discriminate).
  clear Et c text'.
  destruct (missing (AWS_ACCESS_KEY env)) eqn:Hk.
  { rewrite (speak_without_credentials env text Hne (or_introl Hk)). cbn [fst snd].
    split; [exists 0%nat; split; [lia | reflexivity] |].
    split; [split; auto |].
    split; [intros H; contradiction |].
    intros _. split; [reflexivity |].
    right. exists None. split; [reflexivity | apply fallback_signal_is_fallback]. }
  destruct (missing (AWS_SECRET_KEY env)) eqn:Hs.
  { rewrite (speak_without_credentials env text Hne (or_intror Hs)). cbn [fst snd].
    split; [exists 0%nat; split; [lia | reflexivity] |].
    split; [split; auto |].
    split; [intros H; contradiction |].
    intros _. split; [reflexivity |].
    right. exists None. split; [reflexivity | apply fallback_signal_is_fallback]. }
  destruct (boto3_client env) as [polly | e] eqn:Hc.
  2:{ rewrite (speak_client_failure env text e Hne Hk Hs Hc). cbn [fst snd].
      split; [exists 0%nat; split; [lia | reflexivity] |].
      split; [split; eauto 6 |].
      split; [intros H; contradiction |].
      intros _. split; [reflexivity |].
      right. exists (Some (str_exn e)).
      split; [reflexivity | apply fallback_signal_is_fallback]. }
  rewrite (speak_text_chain env polly text Hne (conj Hk (conj Hs Hc))).
  assert (Hcalls : forall P : Prop,
            (text = [] \/ false = true \/ false = true
             \/ (exists e, @Return PollyClient polly = Raise e)) -> P).
  { intros P [H | [H | [H | (e & H)]]]; [contradiction | discriminate..]. }
  destruct (tier_outcome polly (generative_request text)) as [a1 | e1];
    [| destruct (is_service_error e1);
       [destruct (tier_outcome polly (neural_request text)) as [a2 | e2];
        [| destruct (is_service_error e2);
           [destruct (tier_outcome polly (standard_request text)) as [a3 | e3] |]] |]].
  all: cbn [fst snd tier_requests].
  all: split;
    [ first [ exists 1%nat; split; [lia | reflexivity]
            | exists 2%nat; split; [lia | reflexivity]
            | exists 3%nat; split; [lia | reflexivity] ] |].
  all: split; [split; [discriminate | apply Hcalls] |].
  all: split; [intros H; contradiction |].
  all: intros _; split; [reflexivity |].
  all: first
    [ right; eexists; split; [reflexivity | apply fallback_signal_is_fallback]
    | left; eexists; eexists;
      split; [| split; [reflexivity | split; [apply audio_answer_not_fallback | discriminate]]];
      unfold engine_tags; cbn [In]; auto ].
Qed.

(** ** Every answer of the chat operation *)

Lemma generate_response_with_matches (query : pystr) (results : QueryResponse) :
  matches results <> [] ->
  generate_response query (Some results) = low_confidence_motor
  \/ generate_response query (Some results) = low_confidence_general
  \/ generate_response query (Some results) = error_apology
  \/ is_category_response (generate_response query (Some results)).
Proof.
  intros Hne.
  destruct (filter passes_gate (matches results)) as [| best rest] eqn:Ef.
  - rewrite (generate_response_low_confidence query results Hne Ef).
    destruct (low_confidence_fixed query) as [E | E]; [left | right; left]; exact E.
  - rewrite (generate_response_relevant query results _ _ Ef).
    destruct (retrieved_context (matches results)) as [context | e];
      [| right; right; left; reflexivity].
    right. right. right. rewrite generate_mechanical_response_classify.
    unfold is_category_response. eauto.
Qed.

(** X5.  A non-empty message whose lower-cased text holds a greeting
    keyword is answered with the fixed greeting, whatever the state of the
    index and of the embedding model: the search is not consulted. *)
Theorem greeting_bypasses_search (env env' : SearchEnv) (message : pystr) :
  message <> [] ->
  any_in greeting_keywords (str_lower message) = true ->
  chat env message
  = jsonify [(u8 "response", JStr greeting_response); (u8 "end_call", JBool false)]
  /\ chat env' message = chat env message.
Proof.
  intros Hne Hg. apply truthy_true in Hne.
  unfold chat. rewrite Hne, Hg. cbn [negb]. split; reflexivity.
Qed.

(** X6.  [chat] rejects the empty message with status 400 and answers
    every other message with status 200, [end_call] false and a response
    that is the greeting, the no-data template, a low-confidence
    checklist, the error apology or a category response.  It is never the
    no-match template of [generate_response]: [chat] calls
    [generate_response] only with at least one match. *)
Theorem chat_answers (env : SearchEnv) (message : pystr) :
  (message = [] ->
   chat env message = ([(u8 "error", JStr (u8 "No message provided"))], 400%nat))
  /\ (message <> [] ->
      exists response,
        chat env message
        = jsonify [(u8 "response", JStr response); (u8 "end_call", JBool false)]
        /\ response <> no_match_response
        /\ (response = greeting_response \/ response = no_data_response
            \/ response = low_confidence_motor \/ response = low_confidence_general
            \/ response = error_apology \/ is_category_response response)).
Proof.
  split; [intros ->; reflexivity |].
  intros Hne. apply truthy_true in Hne. unfold chat. rewrite Hne. cbn [negb].
  assert (Dg : greeting_response <> no_match_response)
    by (apply diverge_neq; vm_compute; reflexivity).
  assert (Dn : no_data_response <> no_match_response)
    by (apply diverge_neq; vm_compute; reflexivity).
  assert (Dm : low_confidence_motor <> no_match_response)
    by (apply diverge_neq; vm_compute; reflexivity).
  assert (Dl : low_confidence_general <> no_match_response)
    by (apply diverge_neq; vm_compute; reflexivity).
  assert (Da : error_apology <> no_match_response)
    by (apply diverge_neq; vm_compute; reflexivity).
  assert (Dc : forall r, is_category_response r -> r <> no_match_response).
  { intros r Hr ->. exact (fixed_template_not_category _ in_fixed_no_match Hr). }
  destruct (any_in greeting_keywords (str_lower message)).
  { exists greeting_response. split; [reflexivity |]. split; [exact Dg | left; reflexivity]. }
  destruct (query_pinecone env message 5) as [results |] eqn:Eq.
  2:{ exists no_data_response. split; [reflexivity |].
      split; [exact Dn | right; left; reflexivity]. }
  destruct (matches results) as [| m ms] eqn:Em.
  { exists no_data_response. split; [reflexivity |].
    split; [exact Dn | right; left; reflexivity]. }
  cbn [List.length Nat.ltb Nat.leb].
  exists (generate_response message (Some results)). split; [reflexivity |].
  destruct (generate_response_with_matches message results) as [E | [E | [E | E]]].
  - rewrite Em. discriminate.
  - rewrite E. split; [exact Dm | right; right; left; reflexivity].
  - rewrite E. split; [exact Dl | right; right; right; left; reflexivity].
  - rewrite E. split; [exact Da | right; right; right; right; left; reflexivity].
  - split; [exact (Dc _ E) | right; right; right; right; right; exact E].
Qed.

(** X7.  [query_pinecone] returns a result exactly when the index and the
    model are initialised, the model encodes the cleaned query into a
    non-empty embedding, and the remote query for that embedding and the
    requested number of matches returns; the result is then the one the
    index returned, unchanged.  In every other case it returns [None]. *)
Theorem query_pinecone_result
    (env : SearchEnv) (query : pystr) (top_k : nat) (results : QueryResponse) :
  query_pinecone env query top_k = Some results
  <-> exists index m v,
        pinecone_index env = Some index /\ model env = Some m
        /\ encode m (clean_text_for_embedding query) = Return v /\ v <> []
        /\ index_query index v top_k = Return results.
Proof.
  unfold query_pinecone, get_embedding. split.
  - destruct (pinecone_index env) as [index |]; [| discriminate].
    destruct (model env) as [m |]; [| discriminate].
    destruct (encode m (clean_text_for_embedding query)) as [v | e] eqn:Ev; [| discriminate].
    destruct v as [| x v]; cbn [truthy negb]; [discriminate |].
    destruct (index_query index (x :: v) top_k) as [r | e] eqn:Eq; [| discriminate].
    intros H. injection H as <-. exists index, m, (x :: v).
    split; [reflexivity |]. split; [reflexivity |]. split; [exact Ev |].
    split; [discriminate | exact Eq].
  - intros (index & m & v & -> & -> & -> & Hv & Hq).
    apply truthy_true in Hv. rewrite Hv, Hq. reflexivity.
Qed.

(** ** What the answer depends on *)

(** X8.  Once some match passes the confidence gate, the answer depends
    on the match set only through the first three matches past the gate:
    matches at or below 0.70 and matches after the third one past the gate
    never influence it. *)
Theorem answer_depends_on_top_three (query : pystr) (results results' : QueryResponse) :
  filter passes_gate (matches results) <> [] ->
  firstn 3 (filter passes_gate (matches results))
  = firstn 3 (filter passes_gate (matches results')) ->
  generate_response query (Some results) = generate_response query (Some results').
Proof.
  intros Hne H.
  destruct (filter passes_gate (matches results)) as [| best rest] eqn:Ef; [congruence |].
  destruct (filter passes_gate (matches results')) as [| best' rest'] eqn:Ef';
    [discriminate |].
  cbn [firstn] in H. injection H as <- H.
  rewrite (generate_response_relevant query results _ _ Ef),
    (generate_response_relevant query results' _ _ Ef').
  unfold retrieved_context. rewrite Ef, Ef'. cbn [firstn]. now rewrite H.
Qed.

(** X9.  No template echoes the query, and only the general template
    looks at the score, through the 0.80 test of its disclaimer: two
    queries that fall in the same category get, for the same context, the
    same answer, whatever the score when the category is not the general
    one. *)
Theorem templates_ignore_query_and_score
    (c : category) (tech_info : TechInfo) (q q' : pystr) (s s' : float) :
  render_category c tech_info q s = render_category c tech_info q' s
  /\ (c <> CGeneral -> render_category c tech_info q s = render_category c tech_info q' s')
  /\ (PrimFloat.ltb s 0.8%float = PrimFloat.ltb s' 0.8%float ->
      render_category c tech_info q s = render_category c tech_info q' s')
  /\ (forall context,
        classify_query (str_lower q) = classify_query (str_lower q') ->
        generate_mechanical_response q context s = generate_mechanical_response q' context s).
Proof.
  split; [now rewrite !render_category_layout |].
  split; [| split].
  - intros Hc. rewrite !render_category_layout. destruct c; try reflexivity. congruence.
  - intros Hs. rewrite !render_category_layout. destruct c; try reflexivity.
    unfold disclaimer. now rewrite Hs.
  - intros context Hq. rewrite !generate_mechanical_response_classify, Hq.
    now rewrite !render_category_layout.
Qed.

(** ** More on the extractor *)

Lemma split_lines_head (s : pystr) :
  exists l ls b, split_lines s = l :: ls /\ s = l ++ b.
Proof.
  induction s as [| c s (l & ls & b & E & Hs)].
  - exists [], [], []. split; reflexivity.
  - cbn [split_lines]. destruct (c =? 10).
    + exists [], (split_lines s), (c :: s). split; reflexivity.
    + rewrite E. exists (c :: l), ls, b. split; [reflexivity |]. cbn [app]. now rewrite <- Hs.
Qed.

Lemma split_lines_app (a b : pystr) :
  split_lines (a ++ nl ++ b) = split_lines a ++ split_lines b.
Proof.
  induction a as [| c a IH]; [reflexivity |].
  cbn [app split_lines]. rewrite IH.
  destruct (c =? 10); [reflexivity |].
  destruct (split_lines_head a) as (l & ls & rest & E & _). rewrite E. reflexivity.
Qed.

Lemma extract_fold_append (lines : list pystr) (td : TechInfo) :
  fold_left extract_line lines td
  = tech_append td (fold_left extract_line lines (mkTechInfo [] [] [] [])).
Proof.
  rewrite (extract_fold lines td), (extract_fold lines (mkTechInfo [] [] [] [])).
  reflexivity.
Qed.

Lemma tech_append_empty_r (a : TechInfo) : tech_append a (mkTechInfo [] [] [] []) = a.
Proof. destruct a. unfold tech_append. cbn. now rewrite !app_nil_r. Qed.

Lemma extract_app (a b : pystr) :
  extract_technical_info (a ++ nl ++ b)
  = tech_append (extract_technical_info a) (extract_technical_info b).
Proof.
  unfold extract_technical_info. rewrite split_lines_app, fold_left_app.
  apply extract_fold_append.
Qed.

(** X10.  Extraction distributes over the way the context is built: the
    information extracted from passages joined by line breaks is, sequence
    by sequence, the information of the first passage followed by that of
    the next ones.  No line is classified differently because of the
    passage that precedes or follows it. *)
Theorem extraction_is_compositional (a b : pystr) (parts : list pystr) :
  extract_technical_info (a ++ nl ++ b)
  = tech_append (extract_technical_info a) (extract_technical_info b)
  /\ extract_technical_info (str_join nl parts)
     = fold_right tech_append (mkTechInfo [] [] [] []) (map extract_technical_info parts).
Proof.
  split; [apply extract_app |].
  induction parts as [| p [| q ps] IH].
  - reflexivity.
  - cbn [str_join map fold_right]. now rewrite tech_append_empty_r.
  - change (str_join nl (p :: q :: ps)) with (p ++ nl ++ str_join nl (q :: ps)).
    rewrite extract_app, IH. reflexivity.
Qed.

Lemma lstrip_suffix (s : pystr) : exists ws, s = ws ++ lstrip s.
Proof.
  induction s as [| c s [ws IH]]; [now exists [] |].
  cbn [lstrip]. destruct (isspace c); [| now exists []].
  exists (c :: ws). cbn [app]. now rewrite <- IH.
Qed.

Lemma rstrip_prefix (s : pystr) : exists ws, s = rstrip s ++ ws.
Proof.
  unfold rstrip. destruct (lstrip_suffix (rev s)) as [ws H].
  exists (rev ws). rewrite <- rev_app_distr, <- H. now rewrite rev_involutive.
Qed.

Lemma strip_inside (s : pystr) : exists a b, s = a ++ str_strip s ++ b.
Proof.
  unfold str_strip. destruct (lstrip_suffix s) as [a Ha].
  destruct (rstrip_prefix (lstrip s)) as [b Hb].
  exists a, b. now rewrite <- Hb.
Qed.

Lemma split_lines_inside (s line : pystr) :
  In line (split_lines s) -> exists a b, s = a ++ line ++ b.
Proof.
  revert line. induction s as [| c s IH]; intros line Hin.
  - destruct Hin as [<- | []]. now exists [], [].
  - cbn [split_lines] in Hin. destruct (c =? 10).
    + destruct Hin as [<- | Hin]; [now exists [], (c :: s) |].
      destruct (IH line Hin) as (a & b & E). exists (c :: a), b. cbn [app]. now rewrite <- E.
    + destruct (split_lines_head s) as (l & ls & b & E & Hs). rewrite E in Hin, IH.
      destruct Hin as [<- | Hin].
      * exists [], b. cbn [app]. now rewrite <- Hs.
      * destruct (IH line (or_intror Hin)) as (a & b' & E').
        exists (c :: a), b'. cbn [app]. now rewrite <- E'.
Qed.

Lemma lines_of_kind_total (lines : list pystr) :
  (List.length (lines_of_kind Procedures lines)
   + List.length (lines_of_kind Specifications lines)
   + List.length (lines_of_kind Warnings lines)
   + List.length (lines_of_kind Tools lines) <= List.length lines)%nat.
Proof.
  induction lines as [| line lines IH]; [cbn; lia |].
  rewrite !lines_of_kind_cons.
  destruct (classify_line (str_lower line)) as [[| | |] |];
    cbn [info_kind_eqb List.length]; lia.
Qed.

(** X11.  The extractor never invents text: every item of every output
    sequence is a non-empty, trimmed line of the context, occurs in the
    context as a contiguous run, and is of the kind of its sequence by the
    first-match classification; and the four sequences together hold at
    most as many items as the context has lines. *)
Theorem extracted_items_come_from_context (context : pystr) :
  (forall k x, In x (items k (extract_technical_info context)) ->
     x <> []
     /\ (exists line, In line (split_lines context) /\ x = str_strip line)
     /\ str_in x context = true
     /\ classify_line (str_lower x) = Some k)
  /\ (List.length (procedures (extract_technical_info context))
      + List.length (specifications (extract_technical_info context))
      + List.length (warnings (extract_technical_info context))
      + List.length (tools (extract_technical_info context))
      <= List.length (split_lines context))%nat.
Proof.
  split.
  - intros k x Hx. rewrite extract_lines_of_kind in Hx.
    unfold lines_of_kind, content_lines in Hx.
    apply filter_In in Hx as [Hx Hk]. apply filter_In in Hx as [Hx Ht].
    apply in_map_iff in Hx as (line & <- & Hline).
    split; [now apply truthy_true |].
    split; [now exists line |].
    split.
    + destruct (split_lines_inside context line Hline) as (a & b & ->).
      destruct (strip_inside line) as (a' & b' & E).
      rewrite E at 2. rewrite <- !app_assoc, (app_assoc a a').
      apply str_in_middle.
    + destruct (classify_line (str_lower (str_strip line))) as [k' |]; [| discriminate].
      now apply info_kind_eqb_eq in Hk as ->.
  - pose proof (extract_lines_of_kind context Procedures) as Ep.
    pose proof (extract_lines_of_kind context Specifications) as Es.
    pose proof (extract_lines_of_kind context Warnings) as Ew.
    pose proof (extract_lines_of_kind context Tools) as Et.
    cbn [items] in Ep, Es, Ew, Et. rewrite Ep, Es, Ew, Et.
    pose proof (lines_of_kind_total (content_lines context)) as Hle.
    assert (Hc : (List.length (content_lines context)
                  <= List.length (split_lines context))%nat).
    { unfold content_lines.
      rewrite <- (length_map str_strip (split_lines context)).
      apply filter_length_le. }
    lia.
Qed.

(** ** Adding knowledge *)

Lemma str_eqb_eq (a b : pystr) : str_eqb a b = true <-> a = b.
Proof.
  revert b. induction a as [| x a IH]; intros [| y b]; cbn [str_eqb];
    try (split; [discriminate | discriminate]); [split; reflexivity |].
  rewrite andb_true_iff, N.eqb_eq, IH. split.
  - intros [-> ->]. reflexivity.
  - intros E. injection E as -> ->. auto.
Qed.

Lemma str_eqb_refl (a : pystr) : str_eqb a a = true.
Proof. now apply str_eqb_eq. Qed.

Lemma dict_get_set_same {V : Type} (key : pystr) (value : V) (d : dict V) :
  dict_get key (dict_set key value d) = Some value.
Proof.
  induction d as [| [k v] d IH]; cbn [dict_set dict_get].
  - now rewrite str_eqb_refl.
  - destruct (str_eqb k key) eqn:E; cbn [dict_get]; rewrite E; [reflexivity | exact IH].
Qed.

Lemma dict_get_set_other {V : Type} (key key' : pystr) (value : V) (d : dict V) :
  str_eqb key key' = false ->
  dict_get key' (dict_set key value d) = dict_get key' d.
Proof.
  intros Hne. induction d as [| [k v] d IH]; cbn [dict_set dict_get].
  - now rewrite Hne.
  - destruct (str_eqb k key) eqn:E; cbn [dict_get].
    + apply str_eqb_eq in E as ->. now rewrite Hne.
    + destruct (str_eqb k key'); [reflexivity | exact IH].
Qed.

Lemma add_knowledge_cases
    (env : KnowledgeEnv) (text doc_id : pystr) (metadata : dict meta_value) :
  (snd (add_knowledge env text doc_id metadata) = []
   /\ snd (fst (add_knowledge env text doc_id metadata)) <> 200%nat)
  \/ exists index m embedding md,
       pinecone_index (search_env env) = Some index /\ model (search_env env) = Some m
       /\ text <> [] /\ doc_id <> []
       /\ get_embedding (search_env env) text = Some embedding /\ embedding <> []
       /\ md = dict_update metadata
                 [(u8 "text", MStr text);
                  (u8 "agent", MStr (u8 "Miguel"));
                  (u8 "category", MStr (u8 "mecanica_automotriz"));
                  (u8 "added_date", MStr (datetime_now env))]
       /\ snd (add_knowledge env text doc_id metadata) = [[(doc_id, embedding, md)]]
       /\ (snd (fst (add_knowledge env text doc_id metadata)) = 200%nat
           <-> index_upsert env [(doc_id, embedding, md)] = Return tt).
Proof.
  unfold add_knowledge.
  destruct (pinecone_index (search_env env)) as [index |];
    [| left; split; [reflexivity | discriminate]].
  destruct (model (search_env env)) as [m |];
    [| left; split; [reflexivity | discriminate]].
  destruct text as [| c text]; [left; split; [reflexivity | discriminate] |].
  destruct doc_id as [| d doc_id]; [left; split; [reflexivity | discriminate] |].
  cbn [truthy negb orb].
  destruct (get_embedding (search_env env) (c :: text)) as [embedding |];
    [| left; split; [reflexivity | discriminate]].
  destruct embedding as [| x embedding]; [left; split; [reflexivity | discriminate] |].
  cbn [truthy negb]. right.
  exists index, m, (x :: embedding). eexists.
  split; [reflexivity |]. split; [reflexivity |]. split; [discriminate |].
  split; [discriminate |]. split; [reflexivity |]. split; [discriminate |].
  split; [reflexivity |].
  destruct (index_upsert env _) as [[] | e]; cbn [fst snd].
  - split; [reflexivity |]. split; reflexivity.
  - split; [reflexivity |]. split; discriminate.
Qed.

(** X12.  [add_knowledge] writes to the index at most once, and only
    after the index and the model are initialised, text and identifier
    are non-empty, and the text has a non-empty embedding: the single
    vector sent carries the caller's identifier and that embedding.  It
    answers with status 200 exactly when that write returned; without
    index or model it answers 500 even for an empty text or identifier,
    and with them but an empty text or identifier it answers 400. *)
Theorem add_knowledge_validates
    (env : KnowledgeEnv) (text doc_id : pystr) (metadata : dict meta_value) :
  let answer := fst (add_knowledge env text doc_id metadata) in
  let calls := snd (add_knowledge env text doc_id metadata) in
  (List.length calls <= 1)%nat
  /\ (forall vectors, In vectors calls ->
        exists embedding md,
          vectors = [(doc_id, embedding, md)]
          /\ pinecone_index (search_env env) <> None /\ model (search_env env) <> None
          /\ text <> [] /\ doc_id <> []
          /\ get_embedding (search_env env) text = Some embedding /\ embedding <> [])
  /\ (snd answer = 200%nat <->
      exists vectors, calls = [vectors] /\ index_upsert env vectors = Return tt)
  /\ (pinecone_index (search_env env) = None \/ model (search_env env) = None ->
      snd answer = 500%nat /\ calls = [])
  /\ (pinecone_index (search_env env) <> None -> model (search_env env) <> None ->
      text = [] \/ doc_id = [] ->
      snd answer = 400%nat /\ calls = []).
Proof.
  cbv zeta.
  split; [| split; [| split; [| split]]].
  - destruct (add_knowledge_cases env text doc_id metadata)
      as [[-> _] | (i & m & v & md & _ & _ & _ & _ & _ & _ & _ & -> & _)]; cbn; lia.
  - intros vectors Hin.
    destruct (add_knowledge_cases env text doc_id metadata)
      as [[E _] | (i & m & v & md & Hi & Hm & Ht & Hd & He & Hv & _ & E & _)];
      rewrite E in Hin; [destruct Hin |].
    destruct Hin as [<- | []]. exists v, md.
    rewrite Hi, Hm. repeat split; auto; discriminate.
  - destruct (add_knowledge_cases env text doc_id metadata)
      as [[E Hs] | (i & m & v & md & _ & _ & _ & _ & _ & _ & _ & E & Hs)]; rewrite E.
    + split; [intros H; contradiction | intros (vs & H & _); discriminate].
    + rewrite Hs. split.
      * intros H. eauto.
      * intros (vs & H & Hu). injection H as <-. exact Hu.
  - unfold add_knowledge. intros [-> | ->]; [split; reflexivity |].
    destruct (pinecone_index (search_env env)); split; reflexivity.
  - unfold add_knowledge. intros Hi Hm Hempty.
    destruct (pinecone_index (search_env env)); [| congruence].
    destruct (model (search_env env)); [| congruence].
    destruct Hempty as [-> | ->]; [split; reflexivity |].
    destruct text; split; reflexivity.
Qed.

Lemma stamped_get (text now : pystr) (metadata : dict meta_value) :
  let md := dict_update metadata
              [(u8 "text", MStr text);
               (u8 "agent", MStr (u8 "Miguel"));
               (u8 "category", MStr (u8 "mecanica_automotriz"));
               (u8 "added_date", MStr now)] in
  dict_get (u8 "text") md = Some (MStr text)
  /\ dict_get (u8 "agent") md = Some (MStr (u8 "Miguel"))
  /\ dict_get (u8 "category") md = Some (MStr (u8 "mecanica_automotriz"))
  /\ dict_get (u8 "added_date") md = Some (MStr now)
  /\ (forall key, existsb (str_eqb key) stamped_keys = false ->
                  dict_get key md = dict_get key metadata).
Proof.
  cbv zeta. unfold dict_update. cbn [fold_left].
  repeat split.
  - rewrite !dict_get_set_other by (vm_compute; reflexivity). apply dict_get_set_same.
  - rewrite !dict_get_set_other by (vm_compute; reflexivity). apply dict_get_set_same.
  - rewrite !dict_get_set_other by (vm_compute; reflexivity). apply dict_get_set_same.
  - apply dict_get_set_same.
  - intros key Hk. unfold stamped_keys in Hk. cbn [existsb] in Hk.
    apply orb_false_iff in Hk as [H1 Hk]. apply orb_false_iff in Hk as [H2 Hk].
    apply orb_false_iff in Hk as [H3 Hk]. apply orb_false_iff in Hk as [H4 _].
    assert (Sym : forall a b, str_eqb a b = false -> str_eqb b a = false).
    { intros a b H. destruct (str_eqb b a) eqn:E; [| reflexivity].
      apply str_eqb_eq in E as ->. now rewrite str_eqb_refl in H. }
    rewrite !dict_get_set_other by (apply Sym; assumption). reflexivity.
Qed.

(** X13.  The metadata [add_knowledge] sends to the index always holds
    the submitted text under [text], the agent and category tags and the
    insertion date: values the caller supplied under these four keys are
    overwritten, and every other key of the caller keeps its value. *)
Theorem upserted_metadata_is_stamped
    (env : KnowledgeEnv) (text doc_id : pystr) (metadata : dict meta_value)
    (id' : pystr) (embedding : list float) (md : dict meta_value) :
  In [(id', embedding, md)] (snd (add_knowledge env text doc_id metadata)) ->
  id' = doc_id
  /\ dict_get (u8 "text") md = Some (MStr text)
  /\ dict_get (u8 "agent") md = Some (MStr (u8 "Miguel"))
  /\ dict_get (u8 "category") md = Some (MStr (u8 "mecanica_automotriz"))
  /\ dict_get (u8 "added_date") md = Some (MStr (datetime_now env))
  /\ (forall key, existsb (str_eqb key) stamped_keys = false ->
                  dict_get key md = dict_get key metadata).
Proof.
  intros Hin.
  destruct (add_knowledge_cases env text doc_id metadata)
    as [[E _] | (i & m & v & md' & _ & _ & _ & _ & _ & _ & Hmd & E & _)];
    rewrite E in Hin; [destruct Hin |].
  destruct Hin as [H | []]. injection H as <- <- <-.
  split; [reflexivity |]. rewrite Hmd. apply stamped_get.
Qed.

(** X14.  Knowledge written by [add_knowledge] is usable by the
    synthesizer: a match that carries metadata sent by [add_knowledge]
    has a [text] field holding the submitted text as a string, so a match
    set made of such matches never makes the retrieval of the context
    fail. *)
Theorem added_knowledge_is_retrievable (ms : list Match) :
  (forall m, In m ms ->
     exists env text doc_id supplied id' embedding md,
       In [(id', embedding, md)] (snd (add_knowledge env text doc_id supplied))
       /\ metadata m = Some md) ->
  (forall m, In m ms -> has_text m = true /\ exists text, metadata_text m = MStr text)
  /\ exists context, retrieved_context ms = Return context.
Proof.
  intros H.
  assert (G : forall m, In m ms ->
                has_text m = true /\ exists text, metadata_text m = MStr text).
  { intros m Hm.
    destruct (H m Hm) as (env & text & doc_id & supplied & id' & emb & md & Hin & Hmd).
    destruct (upserted_metadata_is_stamped env text doc_id supplied id' emb md Hin)
      as (_ & Htext & _).
    destruct md as [| entry md]; [discriminate Htext |].
    unfold has_text, metadata_text, dict_contains. rewrite Hmd, Htext.
    split; [reflexivity | eauto]. }
  split; [exact G |].
  unfold retrieved_context, join_lines.
  destruct (join_values_strings
              (map metadata_text (filter has_text (firstn 3 (filter passes_gate ms)))))
    as [ss Hss].
  - intros v Hv. apply in_map_iff in Hv as (m & <- & Hm).
    apply filter_In in Hm as [Hm _]. apply In_firstn, filter_In in Hm as [Hm _].
    exact (proj2 (G m Hm)).
  - rewrite Hss. eauto.
Qed.

(** ** Initialisation *)

Ltac run_setup :=
  unfold init_pinecone, init_pinecone_try, setup_bind, remote, set_index, set_model,
    setup_ret.

Ltac setup_cases service :=
  destruct (missing (PINECONE_API_KEY service)) eqn:Hkey; cbn [negb];
  [| destruct (pinecone_init service) as [[] | e0] eqn:Hinit;
     [destruct (pinecone_list_indexes service) as [names | e1] eqn:Hlist;
      [destruct (existsb (str_eqb INDEX_NAME) names) eqn:Hnames; cbn [negb];
       [| destruct (pinecone_create_index service) as [[] | e2] eqn:Hcreate ];
       try (destruct (pinecone_Index service) as [index | e3] eqn:Hopen;
            [destruct (SentenceTransformer service) as [m | e4] eqn:Hload;
             [destruct (describe_index_stats service index) as [stats | e5] eqn:Hstats
             |] |]) |] |]];
  cbn [fst snd app].

(** X15.  [init_pinecone] never raises.  Without an API key it returns
    [False], makes no remote call and leaves the globals as they were.  It
    returns [True] exactly when the key is present and initialisation,
    listing, creating the index when the listing lacks its name, opening
    the index, loading the model and reading the statistics of that index
    all succeeded, and then the globals hold exactly that index and that
    model.  Whatever it returns, an index or a model that was set before
    the call is still set after it. *)
Theorem init_pinecone_outcome (service : PineconeService) (globals : SearchEnv) :
  let ready := fst (fst (init_pinecone service globals)) in
  let globals' := snd (fst (init_pinecone service globals)) in
  let calls := snd (init_pinecone service globals) in
  (missing (PINECONE_API_KEY service) = true ->
   ready = false /\ globals' = globals /\ calls = [])
  /\ (ready = true ->
      exists index m stats,
        pinecone_init service = Return tt
        /\ pinecone_Index service = Return index
        /\ SentenceTransformer service = Return m
        /\ describe_index_stats service index = Return stats
        /\ globals' = mkSearchEnv (Some index) (Some m))
  /\ (pinecone_index globals <> None -> pinecone_index globals' <> None)
  /\ (model globals <> None -> model globals' <> None)
  /\ (ready = true <->
      missing (PINECONE_API_KEY service) = false
      /\ pinecone_init service = Return tt
      /\ exists names index m stats,
           pinecone_list_indexes service = Return names
           /\ (existsb (str_eqb INDEX_NAME) names = false ->
               pinecone_create_index service = Return tt)
           /\ pinecone_Index service = Return index
           /\ SentenceTransformer service = Return m
           /\ describe_index_stats service index = Return stats)
  /\ (ready = true ->
      calls = [CallInit; CallListIndexes; CallCreateIndex; CallOpenIndex;
               CallLoadModel; CallDescribeStats]
      \/ calls = [CallInit; CallListIndexes; CallOpenIndex; CallLoadModel;
                  CallDescribeStats]).
Proof.
  cbv zeta. run_setup. setup_cases service.
  all: split; [intros Hk; try discriminate Hk; repeat split; reflexivity |].
  all: split;
    [intros Hr; try discriminate Hr;
     exists index, m, stats; repeat split; (reflexivity || assumption) |].
  all: split; [intros Hi; try exact Hi; discriminate |].
  all: split; [intros Hm; try exact Hm; discriminate |].
  all: split; [| intros Hr; try discriminate Hr; (left; reflexivity) || (right; reflexivity)].
  all: split;
    [ intros Hr; try discriminate Hr;
      (split; [reflexivity |]; split; [reflexivity |];
       exists names, index, m, stats;
       split; [reflexivity |]; split; [intros Hn; congruence |];
       split; [reflexivity |]; split; [reflexivity | assumption])
    | intros (Hk & Hi & names' & index' & m' & stats' & Hl & Hc & Ho & Hm & Hs);
      try reflexivity; try congruence;
      assert (names' = names) by congruence; subst names';
      specialize (Hc Hnames); congruence ].
Qed.

(** X16.  [init_pinecone] makes its remote calls in one fixed order and
    stops at the first that raises: a call that raises is the last one
    made, and a last call that returned is the reading of the statistics,
    the end of the sequence.  No call is made exactly when the key is
    missing.  It asks the service to create the index exactly when the key
    is present, initialisation succeeded and the listing returned without
    the index name in it; an index that is listed is never created again,
    and when the creation raises the index is not opened and the globals
    are left as they were. *)
Theorem index_created_only_when_missing (service : PineconeService) (globals : SearchEnv) :
  let calls := snd (init_pinecone service globals) in
  (In CallCreateIndex calls <->
   missing (PINECONE_API_KEY service) = false
   /\ pinecone_init service = Return tt
   /\ exists names, pinecone_list_indexes service = Return names
                    /\ existsb (str_eqb INDEX_NAME) names = false)
  /\ (exists k,
        calls = firstn k [CallInit; CallListIndexes; CallCreateIndex; CallOpenIndex;
                          CallLoadModel; CallDescribeStats]
        \/ calls = firstn k [CallInit; CallListIndexes; CallOpenIndex;
                             CallLoadModel; CallDescribeStats])
  /\ (forall e, pinecone_create_index service = Raise e ->
                In CallCreateIndex calls ->
                snd (fst (init_pinecone service globals)) = globals
                /\ ~ In CallOpenIndex calls)
  /\ (forall c, In c calls -> call_raised service c = true ->
                exists before, calls = before ++ [c])
  /\ (forall c before, calls = before ++ [c] -> call_raised service c = false ->
                       c = CallDescribeStats)
  /\ (calls = [] <-> missing (PINECONE_API_KEY service) = true)
  /\ (forall c, In c calls -> call_raised service c = true ->
                fst (fst (init_pinecone service globals)) = false).
Proof.
  cbv zeta. run_setup. setup_cases service.
  all: split;
    [ split;
      [ cbn [In]; intros H;
        repeat match goal with H : _ \/ _ |- _ => destruct H end;
        try discriminate; try contradiction;
        (split; [reflexivity |]; split; [reflexivity |]; eexists;
         split; [reflexivity | assumption])
      | intros (Hk & Hi & names' & Hl & Hn);
        try discriminate; try congruence;
        cbn [In]; auto 10 ] |].
  all: split;
    [ first [ exists 0%nat; left; reflexivity | exists 1%nat; left; reflexivity
            | exists 2%nat; left; reflexivity | exists 3%nat; left; reflexivity
            | exists 4%nat; left; reflexivity | exists 5%nat; left; reflexivity
            | exists 6%nat; left; reflexivity
            | exists 3%nat; right; reflexivity | exists 4%nat; right; reflexivity
            | exists 5%nat; right; reflexivity ] |].
  all: split;
    [ intros e He; try discriminate; cbn [In]; intros Hin;
      repeat match goal with H : _ \/ _ |- _ => destruct H end;
      try discriminate; try contradiction;
      (split; [destruct globals; reflexivity |]);
      intros ?; repeat match goal with H : _ \/ _ |- _ => destruct H end;
      try discriminate; try contradiction |].
  all: split;
    [ intros c Hin Hr; cbn [In] in Hin;
      repeat match goal with H : _ \/ _ |- _ => destruct H end;
      try contradiction; subst c;
      unfold call_raised, returned in Hr;
      repeat (match goal with
              | E : _ = Return _ |- _ => rewrite E in Hr
              | E : _ = Raise _ |- _ => rewrite E in Hr
              end;
              cbv beta iota in Hr);
      cbn [negb] in Hr;
      try discriminate Hr;
      first [ exists []; reflexivity
            | exists [CallInit]; reflexivity
            | exists [CallInit; CallListIndexes]; reflexivity
            | exists [CallInit; CallListIndexes; CallCreateIndex]; reflexivity
            | exists [CallInit; CallListIndexes; CallOpenIndex]; reflexivity
            | exists [CallInit; CallListIndexes; CallCreateIndex; CallOpenIndex];
              reflexivity
            | exists [CallInit; CallListIndexes; CallOpenIndex; CallLoadModel];
              reflexivity
            | exists [CallInit; CallListIndexes; CallCreateIndex; CallOpenIndex;
                      CallLoadModel]; reflexivity ] |].
  all: split;
    [ intros c before Hc Hr;
      apply (f_equal (@rev setup_call)) in Hc; rewrite rev_unit in Hc;
      cbn [rev app] in Hc; try discriminate Hc;
      injection Hc as Hc _; subst c; try reflexivity;
      unfold call_raised, returned in Hr;
      repeat (match goal with
              | E : _ = Return _ |- _ => rewrite E in Hr
              | E : _ = Raise _ |- _ => rewrite E in Hr
              end;
              cbv beta iota in Hr);
      cbn [negb] in Hr;
      discriminate Hr |].
  all: split; [split; intros H; (reflexivity || discriminate H || congruence) |].
  all: intros c Hin Hr; try reflexivity; cbn [In] in Hin;
    repeat match goal with H : _ \/ _ |- _ => destruct H end;
    try contradiction; subst c;
    unfold call_raised, returned in Hr;
    repeat (match goal with
              | E : _ = Return _ |- _ => rewrite E in Hr
              | E : _ = Raise _ |- _ => rewrite E in Hr
              end;
            cbv beta iota in Hr);
    cbn [negb] in Hr; discriminate Hr.
Qed.

End Agent.

(* ================================================================= *)
(** * Concrete runs

    The pipeline on Spanish text, lower-cased by [lower_latin1]. *)

Lemma no_newline_check (p : pystr) :
  forallb (fun c => negb (c =? 10)) p = true -> ~ In 10 p.
Proof.
  intros H Hin. rewrite forallb_forall in H. specialize (H 10 Hin). discriminate.
Defined.

Lemma literal_not_empty (p : pystr) : truthy p = true -> p <> [].
Proof. intros H E. rewrite E in H. discriminate. Defined.

Lemma generate_response_confidence_gate_witness :
  is_category_response
    (generate_response lower_latin1 tires_query (Some (mkQueryResponse [tires_match])))
  /\ exists results best,
       Some (mkQueryResponse [tires_match]) = Some results
       /\ In best (matches results) /\ passes_gate best = true.
Proof.
  assert (H : is_category_response
                (generate_response lower_latin1 tires_query
                                   (Some (mkQueryResponse [tires_match])))).
  { exists CTires, (extract_technical_info lower_latin1 tires_passage), tires_query,
      0.85%float.
    vm_compute. reflexivity. }
  split; [exact H |].
  exact (proj2 (generate_response_confidence_gate lower_latin1 tires_query
                  (Some (mkQueryResponse [tires_match]))) H).
Defined.

Lemma category_priority_first_wins_witness :
  any_in motor_keywords (lower_latin1 motor_and_brakes_query) = true
  /\ any_in brakes_keywords (lower_latin1 motor_and_brakes_query) = true
  /\ classify_query (lower_latin1 motor_and_brakes_query) = CEngine
  /\ generate_mechanical_response lower_latin1 motor_and_brakes_query tires_passage 0.85%float
     = generate_motor_response_with_context
         (extract_technical_info lower_latin1 tires_passage) 0.85%float.
Proof.
  assert (H : any_in motor_keywords (lower_latin1 motor_and_brakes_query) = true)
    by (vm_compute; reflexivity).
  split; [exact H |].
  split; [vm_compute; reflexivity |].
  destruct (category_priority_first_wins lower_latin1 motor_and_brakes_query
              tires_passage 0.85%float)
    as (_ & _ & Hengine & _).
  destruct (Hengine H) as (Hc & Hr & _).
  split; [exact Hc | exact Hr].
Defined.

Lemma low_confidence_depends_on_query_only_witness :
  generate_response lower_latin1 tires_query
    (Some (mkQueryResponse [weak_match 0.5%float]))
  = generate_response lower_latin1 tires_query
      (Some (mkQueryResponse [weak_match 0.7%float; weak_match 0.25%float])).
Proof.
  refine (proj1 (proj2 (low_confidence_depends_on_query_only lower_latin1 tires_query
                          (mkQueryResponse [weak_match 0.7%float; weak_match 0.25%float])
                          (mkQueryResponse [weak_match 0.5%float]) _ _ _ _))).
  - cbn. discriminate.
  - cbn. discriminate.
  - intros m [<- | [<- | []]]; vm_compute; reflexivity.
  - intros m [<- | []]; vm_compute; reflexivity.
Defined.

Lemma extract_technical_info_classifies_witness :
  extract_technical_info lower_latin1
    (procedure_line ++ nl ++ specification_line ++ nl ++ warning_line ++ nl ++ tool_line)
  = mkTechInfo [str_strip procedure_line] [str_strip specification_line]
               [str_strip warning_line] [str_strip tool_line].
Proof.
  refine (proj2 (proj2 (extract_technical_info_classifies lower_latin1 []))
            procedure_line specification_line warning_line tool_line
            _ _ _ _ _ _ _ _ _ _ _ _).
  1-4: apply no_newline_check; vm_compute; reflexivity.
  1-4: apply literal_not_empty; vm_compute; reflexivity.
  all: vm_compute; reflexivity.
Defined.

Lemma templates_follow_their_layout_witness :
  str_in (u8 "Valor: 90 Nm") (render_category CTires full_info tires_query 0.85%float) = true
  /\ render_category CBrakes full_info tires_query 0.85%float
     = render_category CBrakes
         (mkTechInfo (procedures full_info) [u8 "Medida: 3 mm"; u8 "Tolerancia: 0.1 mm"] [] [])
         tires_query 0.85%float.
Proof.
  split.
  - destruct (templates_follow_their_layout CTires full_info tires_query 0.85%float)
      as (_ & _ & Hshow & _).
    apply (Hshow Specifications). right. right. left. reflexivity.
  - destruct (templates_follow_their_layout CBrakes full_info tires_query 0.85%float)
      as (_ & _ & _ & Hdep & _).
    apply Hdep. intros [| | |]; reflexivity.
Defined.



Lemma speech_ready_creds (polly : PollyClient) : speech_ready (creds_env polly) polly.
Proof. repeat split; vm_compute; reflexivity. Defined.

Lemma example_text_not_empty : example_text <> [].
Proof. apply literal_not_empty. vm_compute. reflexivity. Defined.

Lemma speech_tiers_in_order_witness :
  fst (speak_text (creds_env polly_standard_only) example_text)
  = audio_answer [73; 68; 51] (u8 "standard")
  /\ snd (speak_text (creds_env polly_standard_only) example_text)
     = tier_requests example_text
  /\ List.length (snd (speak_text (creds_env polly_standard_only) example_text)) = 3%nat.
Proof.
  pose proof (speech_tiers_in_order (creds_env polly_standard_only) polly_standard_only
                example_text example_text_not_empty
                (speech_ready_creds polly_standard_only)) as H.
  cbv zeta in H. destruct H as (_ & _ & _ & _ & _ & H).
  apply (H (ClientError (u8 "engine not supported")) (ClientError (u8 "engine not supported")));
    vm_compute; reflexivity.
Defined.

Lemma unexpected_errors_end_the_chain_witness :
  speak_text (creds_env polly_crash) example_text
  = (fallback_signal example_text (Some (u8 "boom")), [generative_request example_text]).
Proof.
  destruct (unexpected_errors_end_the_chain (creds_env polly_crash) polly_crash example_text
              example_text_not_empty (speech_ready_creds polly_crash)) as (H & _).
  apply (H (OtherError (u8 "boom"))); vm_compute; reflexivity.
Defined.

Lemma missing_text_is_skipped_witness :
  exists best,
    In best [untexted_match; mkMatch (u8 "doc-4") 0.95%float None]
    /\ passes_gate best = true
    /\ generate_response lower_latin1 tires_query
         (Some (mkQueryResponse [untexted_match; mkMatch (u8 "doc-4") 0.95%float None]))
       = skeleton (classify_query (lower_latin1 tires_query)) (score best).
Proof.
  destruct (proj2 (missing_text_is_skipped lower_latin1 tires_query
                     (mkQueryResponse [untexted_match; mkMatch (u8 "doc-4") 0.95%float None])))
    as (best & Hin & Hp & _ & _ & Hr & _).
  - exists untexted_match. split; [now left | vm_compute; reflexivity].
  - intros m [<- | [<- | []]] _.
    + right. exists [(u8 "source", MStr (u8 "manual"))]. split; [reflexivity |].
      vm_compute. reflexivity.
    + left. reflexivity.
  - exists best. auto.
Defined.

(** C5, counterexample.  With three procedures, three specifications and
    two warnings extracted, the brakes template shows no warning and not
    the third specification, and the tires template shows no procedure: not
    every template shows the first three specifications, the first three
    procedures and the first two warnings. *)
Lemma uniform_lists_counterexample :
  str_in (u8 "Advertencia: usar guantes")
         (generate_brakes_response_with_context full_info 0.85%float) = false
  /\ str_in (u8 "Valor: 90 Nm")
            (generate_brakes_response_with_context full_info 0.85%float) = false
  /\ str_in (u8 "Paso 1: aflojar")
            (generate_tires_response_with_context full_info 0.85%float) = false
  /\ ~ (forall c, shows_uniform_lists full_info
                    (render_category c full_info tires_query 0.85%float)).
Proof.
  split; [vm_compute; reflexivity |].
  split; [vm_compute; reflexivity |].
  split; [vm_compute; reflexivity |].
  assert (Hr : str_in (u8 "Advertencia: usar guantes")
                 (render_category CBrakes full_info tires_query 0.85%float) = false)
    by (vm_compute; reflexivity).
  intros H. destruct (H CBrakes) as (_ & _ & Hshow).
  rewrite (Hshow (u8 "Advertencia: usar guantes") (or_introl eq_refl)) in Hr.
  discriminate.
Qed.

(** C8, on the code.  When all three tiers fail, each with a service error
    of its own, the client-side fallback signal carries the original text
    and the error of the neural tier, the second, although the standard
    tier, the third, raised the last error.  Without credentials the signal
    carries the text, no error, and no call is made. *)
Theorem exhausted_chain_reports_neural_error :
  tier_outcome polly_all_fail (generative_request example_text)
  = Raise (ClientError (u8 "generative rejected"))
  /\ tier_outcome polly_all_fail (neural_request example_text)
     = Raise (ClientError (u8 "neural rejected"))
  /\ tier_outcome polly_all_fail (standard_request example_text)
     = Raise (BotoCoreError (u8 "standard rejected"))
  /\ speak_text (creds_env polly_all_fail) example_text
     = (fallback_signal example_text (Some (u8 "neural rejected")),
        tier_requests example_text)
  /\ speak_text (mkSpeechEnv None None (Return polly_all_fail)) example_text
     = (fallback_signal example_text None, []).
Proof.
  repeat split; vm_compute; reflexivity.
Qed.

(** C9, counterexample.  An exception that is not a service error, raised
    in tier 1, comes back as the client-side fallback signal; raised in
    tier 3 it is caught with the service errors, and the signal reports the
    error of tier 2 instead. *)
Lemma unexpected_error_counterexample :
  tier_outcome polly_crash (generative_request example_text)
  = Raise (OtherError (u8 "boom"))
  /\ is_service_error (OtherError (u8 "boom")) = false
  /\ is_client_fallback (fst (speak_text (creds_env polly_crash) example_text)) = true
  /\ tier_outcome polly_crash_standard (standard_request example_text)
     = Raise (OtherError (u8 "boom"))
  /\ speak_text (creds_env polly_crash_standard) example_text
     = (fallback_signal example_text (Some (u8 "engine not supported")),
        tier_requests example_text).
Proof.
  repeat split; vm_compute; reflexivity.
Qed.

(* ================================================================= *)
(** * More concrete runs *)

Lemma no_trigger_check (text : pystr) (c : N) :
  forallb (fun c => negb (existsb (N.eqb c) pause_triggers)) text = true ->
  In c text -> ~ In c pause_triggers.
Proof.
  intros H Hin Ht. rewrite forallb_forall in H. specialize (H c Hin).
  apply negb_true_iff in H.
  assert (E : existsb (N.eqb c) pause_triggers = true).
  { apply existsb_exists. exists c. split; [exact Ht | apply N.eqb_refl]. }
  congruence.
Defined.

Lemma speak_text_answers_witness :
  snd (fst (speak_text (creds_env polly_all_fail) example_text)) = 200%nat.
Proof.
  destruct (speak_text_answers (creds_env polly_all_fail) example_text)
    as (_ & _ & _ & H).
  exact (proj1 (H example_text_not_empty)).
Defined.

Lemma plain_text_is_not_annotated_witness :
  create_generative_ssml plain_text = generative_prologue ++ plain_text ++ generative_epilogue.
Proof.
  refine (proj1 (proj2 (proj2 (plain_text_is_not_annotated plain_text _ _ _)))).
  - intros word Hw. unfold improvements in Hw. cbn [In] in Hw.
    repeat (destruct Hw as [<- | Hw]; [vm_compute; reflexivity |]). destruct Hw.
  - intros c Hc. apply no_trigger_check with (text := plain_text);
      [vm_compute; reflexivity | exact Hc].
  - vm_compute. reflexivity.
Defined.

Lemma greeting_bypasses_search_witness :
  chat lower_latin1 (fun text => text) warm_env greeting_message
  = chat lower_latin1 (fun text => text) cold_env greeting_message.
Proof.
  refine (proj2 (greeting_bypasses_search lower_latin1 (fun text => text) cold_env warm_env
                   greeting_message _ _)).
  - apply literal_not_empty. vm_compute. reflexivity.
  - vm_compute. reflexivity.
Defined.

Lemma chat_answers_witness :
  exists response,
    chat lower_latin1 (fun text => text) warm_env breakdown_message
    = jsonify [(u8 "response", JStr response); (u8 "end_call", JBool false)]
    /\ response <> no_match_response.
Proof.
  destruct (proj2 (chat_answers lower_latin1 (fun text => text) warm_env breakdown_message))
    as (response & E & Hne & _).
  - apply literal_not_empty. vm_compute. reflexivity.
  - exists response. split; assumption.
Defined.

Lemma query_pinecone_result_witness :
  query_pinecone (fun text => text) warm_env tires_query 5
  = Some (mkQueryResponse [tires_match]).
Proof.
  apply (proj2 (query_pinecone_result (fun text => text) warm_env tires_query 5
                  (mkQueryResponse [tires_match]))).
  exists toy_index, toy_model, [0.25%float; 0.5%float].
  repeat split; try reflexivity. discriminate.
Defined.

Lemma answer_depends_on_top_three_witness :
  generate_response lower_latin1 tires_query
    (Some (mkQueryResponse [tires_match; weak_match 0.3%float]))
  = generate_response lower_latin1 tires_query
      (Some (mkQueryResponse [weak_match 0.1%float; tires_match])).
Proof.
  apply (answer_depends_on_top_three lower_latin1 tires_query
           (mkQueryResponse [tires_match; weak_match 0.3%float])
           (mkQueryResponse [weak_match 0.1%float; tires_match])).
  - vm_compute. discriminate.
  - vm_compute. reflexivity.
Defined.

Lemma templates_ignore_query_and_score_witness :
  render_category CBrakes full_info tires_query 0.75%float
  = render_category CBrakes full_info motor_and_brakes_query 0.95%float.
Proof.
  refine (proj1 (proj2 (templates_ignore_query_and_score lower_latin1 CBrakes full_info
                          tires_query
                          motor_and_brakes_query 0.75%float 0.95%float)) _).
  discriminate.
Defined.

Lemma extracted_items_come_from_context_witness :
  str_in specification_line tires_passage = true.
Proof.
  destruct (proj1 (extracted_items_come_from_context lower_latin1 tires_passage)
              Specifications specification_line) as (_ & _ & H & _).
  - vm_compute. left. reflexivity.
  - exact H.
Defined.

Lemma add_knowledge_validates_witness :
  snd (fst (add_knowledge (fun text => text) knowledge_env tires_passage [] supplied_metadata))
  = 400%nat
  /\ snd (add_knowledge (fun text => text) knowledge_env tires_passage [] supplied_metadata)
     = [].
Proof.
  pose proof (add_knowledge_validates (fun text => text) knowledge_env tires_passage []
                supplied_metadata) as H.
  cbv zeta in H. destruct H as (_ & _ & _ & _ & H).
  apply H; [discriminate | discriminate | right; reflexivity].
Defined.

Lemma upserted_metadata_is_stamped_witness :
  dict_get (u8 "text") stamped_metadata = Some (MStr tires_passage)
  /\ dict_get (u8 "source") stamped_metadata = dict_get (u8 "source") supplied_metadata.
Proof.
  destruct (upserted_metadata_is_stamped (fun text => text) knowledge_env tires_passage
              (u8 "doc-9") supplied_metadata (u8 "doc-9") [0.25%float; 0.5%float]
              stamped_metadata) as (_ & Ht & _ & _ & _ & Hk).
  - left. vm_compute. reflexivity.
  - split; [exact Ht |]. apply Hk. vm_compute. reflexivity.
Defined.

Lemma added_knowledge_is_retrievable_witness :
  exists context,
    retrieved_context [mkMatch (u8 "doc-9") 0.9%float (Some stamped_metadata)]
    = Return context.
Proof.
  refine (proj2 (added_knowledge_is_retrievable (fun text => text)
                   [mkMatch (u8 "doc-9") 0.9%float (Some stamped_metadata)] _)).
  intros m [<- | []].
  exists knowledge_env, tires_passage, (u8 "doc-9"), supplied_metadata, (u8 "doc-9"),
    [0.25%float; 0.5%float], stamped_metadata.
  split; [left; vm_compute; reflexivity | reflexivity].
Defined.

Lemma init_pinecone_outcome_witness :
  snd (fst (init_pinecone ready_service cold_env)) = warm_env.
Proof.
  pose proof (init_pinecone_outcome ready_service cold_env) as H.
  cbv zeta in H. destruct H as (_ & H & _).
  destruct H as (index & m & stats & _ & Hi & Hm & _ & E); [vm_compute; reflexivity |].
  rewrite E. injection Hi as <-. injection Hm as <-. reflexivity.
Defined.

Lemma index_created_only_when_missing_witness :
  snd (fst (init_pinecone failing_service warm_env)) = warm_env
  /\ ~ In CallOpenIndex (snd (init_pinecone failing_service warm_env)).
Proof.
  pose proof (index_created_only_when_missing failing_service warm_env) as H.
  cbv zeta in H. destruct H as (Hc & _ & H & _).
  apply (H (OtherError (u8 "quota"))); [reflexivity |].
  apply Hc. split; [vm_compute; reflexivity |]. split; [reflexivity |].
  exists [u8 "otro-indice"]. split; [reflexivity | vm_compute; reflexivity].
Defined.

(* ================================================================= *)
(** * The text normalizer *)

(** ** Replacement *)

Lemma str_in_skipn (p s : pystr) (k : nat) :
  str_in p (skipn k s) = true -> str_in p s = true.
Proof.
  revert s. induction k as [| k IH]; intros s H; [exact H |].
  destruct s as [| c s]; [exact H |].
  cbn [skipn] in H. cbn [str_in]. rewrite (IH s H). apply orb_true_r.
Qed.

Lemma disjoint_chars_spec (a b : pystr) :
  disjoint_chars a b = true -> forall c, In c a -> ~ In c b.
Proof.
  unfold disjoint_chars. intros H c Ha Hb.
  rewrite forallb_forall in H. specialize (H c Ha). apply negb_true_iff in H.
  assert (E : existsb (N.eqb c) b = true).
  { apply existsb_exists. exists c. split; [exact Hb | apply N.eqb_refl]. }
  congruence.
Qed.

Lemma startswith_head (p s : pystr) (x y : N) :
  startswith (x :: p) (y :: s) = true -> x = y.
Proof.
  cbn [startswith]. intros H. apply andb_true_iff in H as [H _]. now apply N.eqb_eq.
Qed.

Lemma str_in_app_avoid (new p r : pystr) :
  (forall c, In c new -> ~ In c p) -> p <> [] ->
  str_in p (new ++ r) = true -> str_in p r = true.
Proof.
  intros Hav Hp. induction new as [| n new IH]; intros H; [exact H |].
  cbn [app str_in] in H. apply orb_true_iff in H as [H | H].
  - destruct p as [| x p]; [congruence |].
    apply startswith_head in H as ->.
    exfalso. apply (Hav n); now left.
  - apply IH; [| exact H]. intros c Hc. apply Hav. now right.
Qed.

Lemma startswith_replace (old new p s : pystr) :
  (forall c, In c new -> ~ In c p) -> new <> [] ->
  startswith p (replace_from old new 0 s) = true -> startswith p s = true.
Proof.
  intros Hav Hn. revert s Hav.
  induction p as [| x p IH]; intros s Hav H; [reflexivity |].
  destruct s as [| c s]; [exact H |].
  cbn [replace_from] in H. destruct (startswith old (c :: s)).
  - destruct new as [| n new]; [congruence |].
    cbn [app] in H. apply startswith_head in H as ->.
    exfalso. apply (Hav n); now left.
  - cbn [startswith] in *. apply andb_true_iff in H as [H1 H2].
    rewrite H1. cbn [andb]. apply IH; [| exact H2].
    intros d Hd Hp. apply (Hav d Hd). now right.
Qed.

Lemma str_in_replace (old new p s : pystr) (k : nat) :
  (forall c, In c new -> ~ In c p) -> new <> [] -> p <> [] ->
  str_in p (replace_from old new k s) = true -> str_in p s = true.
Proof.
  intros Hav Hn Hp. revert k. induction s as [| c s IH]; intros k H; [exact H |].
  destruct k as [| k].
  - cbn [replace_from] in H. destruct (startswith old (c :: s)) eqn:Es.
    + apply str_in_app_avoid in H; [| exact Hav | exact Hp].
      cbn [str_in]. rewrite (IH _ H). apply orb_true_r.
    + assert (R : c :: replace_from old new 0 s = replace_from old new 0 (c :: s))
        by (cbn [replace_from]; now rewrite Es).
      cbn [str_in] in H. apply orb_true_iff in H as [H | H].
      * rewrite R in H. apply startswith_replace in H; [| exact Hav | exact Hn].
        cbn [str_in]. now rewrite H.
      * cbn [str_in]. rewrite (IH _ H). apply orb_true_r.
  - cbn [replace_from] in H. cbn [str_in]. rewrite (IH _ H). apply orb_true_r.
Qed.

Lemma replace_removes (old new s : pystr) (k : nat) :
  (forall c, In c new -> ~ In c old) -> new <> [] -> old <> [] ->
  str_in old (replace_from old new k s) = false.
Proof.
  intros Hav Hn Ho. revert k. induction s as [| c s IH]; intros k.
  - cbn [replace_from str_in]. destruct old; [congruence | reflexivity].
  - destruct k as [| k]; cbn [replace_from]; [| apply IH].
    destruct (startswith old (c :: s)) eqn:Es.
    + destruct (str_in old (new ++ replace_from old new (Nat.pred (List.length old)) s))
        eqn:E; [| reflexivity].
      apply str_in_app_avoid in E; [| exact Hav | exact Ho]. now rewrite IH in E.
    + cbn [str_in]. rewrite IH, orb_false_r.
      destruct (startswith old (c :: replace_from old new 0 s)) eqn:E; [| reflexivity].
      assert (R : c :: replace_from old new 0 s = replace_from old new 0 (c :: s))
        by (cbn [replace_from]; now rewrite Es).
      rewrite R in E. apply startswith_replace in E; [| exact Hav | exact Hn]. congruence.
Qed.

Lemma replace_from_In (old new s : pystr) (k : nat) (c : N) :
  In c (replace_from old new k s) -> In c s \/ In c new.
Proof.
  revert k. induction s as [| d s IH]; intros k H; [destruct H |].
  destruct k as [| k]; cbn [replace_from] in H.
  - destruct (startswith old (d :: s)).
    + apply in_app_or in H as [H | H]; [now right |].
      destruct (IH _ H) as [H' | H']; [left; now right | now right].
    + destruct H as [<- | H]; [left; now left |].
      destruct (IH _ H) as [H' | H']; [left; now right | now right].
  - destruct (IH _ H) as [H' | H']; [left; now right | now right].
Qed.

Lemma startswith_split (old s : pystr) :
  startswith old s = true -> s = old ++ skipn (List.length old) s.
Proof.
  revert s. induction old as [| x old IH]; intros s H; [reflexivity |].
  destruct s as [| c s]; [discriminate |].
  cbn [startswith] in H. apply andb_true_iff in H as [H1 H2].
  apply N.eqb_eq in H1 as ->. cbn [List.length skipn app]. now rewrite <- (IH s H2).
Qed.

Lemma shape_nonspace (l : pystr) :
  forallb (fun c => negb (isspace c)) l = true -> shape l = repeat None (List.length l).
Proof.
  induction l as [| c l IH]; [reflexivity |].
  cbn [forallb]. intros H. apply andb_true_iff in H as [H1 H2].
  apply negb_true_iff in H1. unfold shape in *. cbn [map List.length repeat].
  now rewrite H1, (IH H2).
Qed.

Lemma shape_app (a b : pystr) : shape (a ++ b) = shape a ++ shape b.
Proof. unfold shape. apply map_app. Qed.

Lemma shape_startswith (old s : pystr) :
  startswith old s = true ->
  forallb (fun c => negb (isspace c)) old = true ->
  shape s = repeat None (List.length old) ++ skipn (List.length old) (shape s).
Proof.
  intros Es Hso.
  transitivity (shape (old ++ skipn (List.length old) s)).
  - f_equal. exact (startswith_split old s Es).
  - rewrite shape_app, (shape_nonspace old Hso). f_equal.
    unfold shape. now rewrite skipn_map.
Qed.

Lemma shape_replace (old new s : pystr) (k : nat) :
  old <> [] -> List.length old = List.length new ->
  forallb (fun c => negb (isspace c)) old = true ->
  forallb (fun c => negb (isspace c)) new = true ->
  shape (replace_from old new k s) = skipn k (shape s).
Proof.
  intros Ho Hl Hso Hsn. revert k. induction s as [| c s IH]; intros k.
  - cbn [replace_from]. unfold shape. cbn [map]. now rewrite skipn_nil.
  - destruct k as [| k]; cbn [replace_from]; [| now rewrite IH].
    destruct (startswith old (c :: s)) eqn:Es.
    + rewrite shape_app, IH, (shape_nonspace new Hsn), <- Hl.
      cbn [skipn]. rewrite (shape_startswith old (c :: s) Es Hso) at 1.
      f_equal. destruct old as [| x old]; [congruence | reflexivity].
    + cbn [skipn]. unfold shape in *. cbn [map]. f_equal. exact (IH 0%nat).
Qed.

(** ** White space *)

Lemma single_spaced_shape (s s' : pystr) (b : bool) :
  shape s = shape s' -> single_spaced b s = single_spaced b s'.
Proof.
  revert s' b. induction s as [| c s IH]; intros [| c' s'] b H; try discriminate;
    [reflexivity |].
  unfold shape in H. cbn [map] in H. injection H as Hc Hs.
  cbn [single_spaced].
  destruct (isspace c), (isspace c'); try discriminate.
  - injection Hc as ->. now rewrite (IH s' true Hs).
  - exact (IH s' false Hs).
Qed.

Lemma trimmed_shape (s s' : pystr) : shape s = shape s' -> trimmed s = trimmed s'.
Proof.
  intros H. unfold trimmed.
  assert (Hr : shape (rev s) = shape (rev s')).
  { unfold shape in *. now rewrite !map_rev, H. }
  f_equal.
  - destruct s as [| c s], s' as [| c' s']; try discriminate; [reflexivity |].
    unfold shape in H. cbn [map] in H. injection H as Hc _.
    destruct (isspace c), (isspace c'); try discriminate; reflexivity.
  - destruct (rev s) as [| c t], (rev s') as [| c' t']; try discriminate; [reflexivity |].
    unfold shape in Hr. cbn [map] in Hr. injection Hr as Hc _.
    destruct (isspace c), (isspace c'); try discriminate; reflexivity.
Qed.

Lemma lstrip_head (s : pystr) (c : N) (t : pystr) :
  lstrip s = c :: t -> isspace c = false.
Proof.
  induction s as [| d s IH]; [discriminate |].
  cbn [lstrip]. destruct (isspace d) eqn:E; [exact IH |].
  intros H. injection H as <- _. exact E.
Qed.

Lemma lstrip_fixed (s : pystr) :
  match s with [] => true | c :: _ => negb (isspace c) end = true -> lstrip s = s.
Proof.
  destruct s as [| c s]; [reflexivity |].
  cbn [lstrip]. intros H. apply negb_true_iff in H. now rewrite H.
Qed.

Lemma trimmed_strip (s : pystr) : trimmed s = true -> str_strip s = s.
Proof.
  unfold trimmed, str_strip, rstrip. intros H. apply andb_true_iff in H as [H1 H2].
  rewrite (lstrip_fixed s H1), (lstrip_fixed (rev s) H2). apply rev_involutive.
Qed.

Lemma strip_trimmed (s : pystr) : trimmed (str_strip s) = true.
Proof.
  unfold trimmed. apply andb_true_iff. split.
  - unfold str_strip. destruct (rstrip_prefix (lstrip s)) as [ws E].
    destruct (rstrip (lstrip s)) as [| c z]; [reflexivity |].
    cbn [app] in E. apply lstrip_head in E. now rewrite E.
  - unfold str_strip, rstrip. rewrite rev_involutive.
    destruct (lstrip (rev (lstrip s))) as [| c t] eqn:E; [reflexivity |].
    apply lstrip_head in E. now rewrite E.
Qed.

Section NormalizerProperties.

Variable isalnum : N -> bool.

Lemma collapse_single_spaced (s : pystr) (b : bool) :
  single_spaced b (Normalizer.collapse b s) = true.
Proof.
  revert b. induction s as [| c s IH]; intros b; [reflexivity |].
  cbn [Normalizer.collapse]. destruct (isspace c) eqn:E.
  - destruct b; [apply IH |].
    cbn [single_spaced]. change (isspace 32) with true. cbn iota.
    rewrite N.eqb_refl. cbn [negb andb]. apply IH.
  - cbn [single_spaced]. rewrite E. apply IH.
Qed.

Lemma single_spaced_collapse (s : pystr) (b : bool) :
  single_spaced b s = true -> Normalizer.collapse b s = s.
Proof.
  revert b. induction s as [| c s IH]; intros b H; [reflexivity |].
  cbn [single_spaced] in H. cbn [Normalizer.collapse].
  destruct (isspace c).
  - apply andb_true_iff in H as [H H3]. apply andb_true_iff in H as [H1 H2].
    apply N.eqb_eq in H1 as ->. apply negb_true_iff in H2 as ->.
    now rewrite (IH true H3).
  - now rewrite (IH false H).
Qed.

Lemma single_spaced_lstrip (s : pystr) (b b' : bool) :
  single_spaced b s = true -> single_spaced b' (lstrip s) = true.
Proof.
  revert b. induction s as [| c s IH]; intros b H; [reflexivity |].
  cbn [lstrip]. cbn [single_spaced] in H. destruct (isspace c) eqn:E.
  - apply andb_true_iff in H as [_ H]. exact (IH true H).
  - cbn [single_spaced]. now rewrite E.
Qed.

Lemma single_spaced_prefix (p q : pystr) (b : bool) :
  single_spaced b (p ++ q) = true -> single_spaced b p = true.
Proof.
  revert b. induction p as [| c p IH]; intros b H; [reflexivity |].
  cbn [app single_spaced] in *. destruct (isspace c).
  - apply andb_true_iff in H as [H1 H2]. rewrite H1. exact (IH true H2).
  - exact (IH false H).
Qed.

Lemma strip_single_spaced (s : pystr) (b : bool) :
  single_spaced b s = true -> single_spaced false (str_strip s) = true.
Proof.
  intros H. unfold str_strip.
  destruct (rstrip_prefix (lstrip s)) as [ws E].
  apply (single_spaced_prefix _ ws). rewrite <- E.
  exact (single_spaced_lstrip s b false H).
Qed.

(** ** Restoring the acronyms *)

Local Notation "'restore'" :=
  (fun text term : pystr => str_replace (lower_latin1 term) term text) (only parsing).

Lemma restore_shape (terms : list pystr) (s : pystr) :
  forallb (fun t => negb (Nat.eqb (List.length t) 0)
                    && Nat.eqb (List.length (lower_latin1 t)) (List.length t)
                    && forallb (fun c => negb (isspace c)) (lower_latin1 t)
                    && forallb (fun c => negb (isspace c)) t) terms = true ->
  shape (fold_left restore terms s) = shape s.
Proof.
  revert s. induction terms as [| a terms IH]; intros s H; [reflexivity |].
  cbn [forallb fold_left] in *. apply andb_true_iff in H as [H Ht].
  apply andb_true_iff in H as [H H4]. apply andb_true_iff in H as [H H3].
  apply andb_true_iff in H as [H1 H2].
  apply negb_true_iff, Nat.eqb_neq in H1. apply Nat.eqb_eq in H2.
  rewrite (IH _ Ht). unfold str_replace.
  rewrite shape_replace; [reflexivity | | exact H2 | exact H3 | exact H4].
  intros E. rewrite E in H2. cbn [List.length] in H2. congruence.
Qed.

Lemma restore_keeps_absent (terms : list pystr) (p s : pystr) :
  p <> [] ->
  (forall t, In t terms -> disjoint_chars t p = true /\ t <> []) ->
  str_in p s = false -> str_in p (fold_left restore terms s) = false.
Proof.
  intros Hp. revert s. induction terms as [| a terms IH]; intros s H Hs; [exact Hs |].
  cbn [fold_left]. apply IH; [intros t Ht; apply H; now right |].
  destruct (H a (or_introl eq_refl)) as [Hd Ha].
  destruct (str_in p (str_replace (lower_latin1 a) a s)) eqn:E; [| reflexivity].
  unfold str_replace in E.
  apply str_in_replace in E;
    [congruence | exact (disjoint_chars_spec _ _ Hd) | exact Ha | exact Hp].
Qed.

Lemma restore_removes (terms : list pystr) (s t : pystr) :
  (forall a b, In a terms -> In b terms ->
     disjoint_chars b (lower_latin1 a) = true /\ b <> [] /\ lower_latin1 a <> []) ->
  In t terms -> str_in (lower_latin1 t) (fold_left restore terms s) = false.
Proof.
  revert s. induction terms as [| a terms IH]; intros s H Ht; [destruct Ht |].
  cbn [fold_left]. destruct Ht as [-> | Ht].
  - destruct (H t t (or_introl eq_refl) (or_introl eq_refl)) as (Hd & Hb & Hl).
    apply restore_keeps_absent; [exact Hl | |].
    + intros b Hb'.
      destruct (H t b (or_introl eq_refl) (or_intror Hb')) as (Hd' & Hb'' & _).
      now split.
    + unfold str_replace.
      apply replace_removes; [exact (disjoint_chars_spec _ _ Hd) | exact Hb | exact Hl].
  - apply IH; [| exact Ht]. intros x y Hx Hy. apply H; now right.
Qed.

Lemma restore_In (terms : list pystr) (s : pystr) (c : N) :
  In c (fold_left restore terms s) -> In c s \/ In c (List.concat terms).
Proof.
  revert s. induction terms as [| a terms IH]; intros s H; [now left |].
  cbn [fold_left] in H. cbn [List.concat].
  destruct (IH _ H) as [H' | H']; [| right; apply in_or_app; now right].
  unfold str_replace in H'.
  destruct (replace_from_In _ _ _ _ _ H') as [H'' | H'']; [now left |].
  right. apply in_or_app. now left.
Qed.

Lemma restore_absent (terms : list pystr) (s : pystr) :
  (forall t, In t terms -> str_in (lower_latin1 t) s = false) ->
  fold_left restore terms s = s.
Proof.
  induction terms as [| a terms IH]; intros H; [reflexivity |].
  cbn [fold_left].
  rewrite (str_replace_absent (lower_latin1 a) a s (H a (or_introl eq_refl))).
  apply IH. intros t Ht. apply H. now right.
Qed.

Lemma preserved_terms_shape :
  forallb (fun t => negb (Nat.eqb (List.length t) 0)
                    && Nat.eqb (List.length (lower_latin1 t)) (List.length t)
                    && forallb (fun c => negb (isspace c)) (lower_latin1 t)
                    && forallb (fun c => negb (isspace c)) t)
          Normalizer.preserved_terms = true.
Proof. vm_compute. reflexivity. Qed.

Lemma preserved_terms_apart :
  forallb (fun a => forallb (fun b =>
             disjoint_chars b (lower_latin1 a)
             && negb (Nat.eqb (List.length b) 0)
             && negb (Nat.eqb (List.length (lower_latin1 a)) 0))
           Normalizer.preserved_terms) Normalizer.preserved_terms = true.
Proof. vm_compute. reflexivity. Qed.

Lemma preserved_terms_removed (s t : pystr) :
  In t Normalizer.preserved_terms ->
  str_in (lower_latin1 t) (fold_left restore Normalizer.preserved_terms s) = false.
Proof.
  apply restore_removes. intros a b Ha Hb.
  pose proof preserved_terms_apart as H.
  rewrite forallb_forall in H. specialize (H a Ha).
  rewrite forallb_forall in H. specialize (H b Hb).
  apply andb_true_iff in H as [H H3]. apply andb_true_iff in H as [H1 H2].
  apply negb_true_iff, Nat.eqb_neq in H2. apply negb_true_iff, Nat.eqb_neq in H3.
  split; [exact H1 |]. split; intros E; rewrite E in *; cbn [List.length] in *; congruence.
Qed.

(** ** The three steps *)

Lemma clean_steps (text : pystr) :
  Normalizer.clean_text_for_embedding isalnum text
  = fold_left restore Normalizer.preserved_terms
      (str_strip (Normalizer.collapse false (Normalizer.blank_others isalnum text))).
Proof. reflexivity. Qed.

Lemma kept_space : Normalizer.kept isalnum 32 = true.
Proof.
  unfold Normalizer.kept. change (isspace 32) with true.
  rewrite orb_true_r. reflexivity.
Qed.

Lemma blank_kept (text : pystr) (c : N) :
  In c (Normalizer.blank_others isalnum text) -> Normalizer.kept isalnum c = true.
Proof.
  unfold Normalizer.blank_others. intros H. apply in_map_iff in H as (x & Hx & _).
  destruct (Normalizer.kept isalnum x) eqn:E; subst c; [exact E | exact kept_space].
Qed.

Lemma blank_fixed (s : pystr) :
  (forall c, In c s -> Normalizer.kept isalnum c = true) ->
  Normalizer.blank_others isalnum s = s.
Proof.
  unfold Normalizer.blank_others. induction s as [| c s IH]; intros H; [reflexivity |].
  cbn [map]. rewrite (H c (or_introl eq_refl)). f_equal.
  apply IH. intros d Hd. apply H. now right.
Qed.

Lemma collapse_In (s : pystr) (b : bool) (c : N) :
  In c (Normalizer.collapse b s) -> c = 32 \/ In c s.
Proof.
  revert b. induction s as [| d s IH]; intros b H; [destruct H |].
  cbn [Normalizer.collapse] in H. destruct (isspace d).
  - destruct b.
    + destruct (IH _ H) as [H' | H']; [now left | right; now right].
    + destruct H as [<- | H]; [now left |].
      destruct (IH _ H) as [H' | H']; [now left | right; now right].
  - destruct H as [<- | H]; [right; now left |].
    destruct (IH _ H) as [H' | H']; [now left | right; now right].
Qed.

Lemma strip_In (s : pystr) (c : N) : In c (str_strip s) -> In c s.
Proof.
  intros H. destruct (strip_inside s) as (a & b & E). rewrite E.
  apply in_or_app. right. apply in_or_app. now left.
Qed.

Lemma strip_length (s : pystr) : (List.length (str_strip s) <= List.length s)%nat.
Proof.
  destruct (strip_inside s) as (a & b & E).
  apply (f_equal (@List.length N)) in E. rewrite !length_app in E. lia.
Qed.

Lemma collapse_length (s : pystr) (b : bool) :
  (List.length (Normalizer.collapse b s) <= List.length s)%nat.
Proof.
  revert b. induction s as [| c s IH]; intros b; [apply Nat.le_refl |].
  cbn [Normalizer.collapse]. destruct (isspace c).
  - destruct b; cbn [List.length]; [specialize (IH true) | specialize (IH true)]; lia.
  - cbn [List.length]. specialize (IH false). lia.
Qed.

Lemma shape_length (s s' : pystr) : shape s = shape s' -> List.length s = List.length s'.
Proof.
  intros H. apply (f_equal (@List.length (option N))) in H.
  unfold shape in H. now rewrite !length_map in H.
Qed.

Lemma single_spaced_only (s : pystr) (b : bool) (c : N) :
  single_spaced b s = true -> In c s -> isspace c = true -> c = 32.
Proof.
  revert b. induction s as [| d s IH]; intros b H Hin Hc; [destruct Hin |].
  cbn [single_spaced] in H. destruct Hin as [-> | Hin].
  - rewrite Hc in H. apply andb_true_iff in H as [H _].
    apply andb_true_iff in H as [H _]. now apply N.eqb_eq.
  - destruct (isspace d).
    + apply andb_true_iff in H as [_ H]. exact (IH true H Hin Hc).
    + exact (IH false H Hin Hc).
Qed.

Lemma single_spaced_apart (s : pystr) (b : bool) :
  single_spaced b s = true -> str_in [32; 32] s = false.
Proof.
  revert b. induction s as [| c s IH]; intros b H; [reflexivity |].
  cbn [str_in]. apply orb_false_iff. split.
  - cbn [startswith]. destruct (32 =? c) eqn:Ec; [| reflexivity].
    apply N.eqb_eq in Ec. subst c. cbn [andb].
    destruct s as [| d s]; [reflexivity |].
    destruct (32 =? d) eqn:Ed; [| reflexivity].
    apply N.eqb_eq in Ed. subst d. exfalso.
    cbn [single_spaced] in H. change (isspace 32) with true in H. cbn iota in H.
    apply andb_true_iff in H as [_ H]. apply andb_true_iff in H as [H _].
    apply andb_true_iff in H as [_ H]. discriminate H.
  - cbn [single_spaced] in H. destruct (isspace c).
    + apply andb_true_iff in H as [_ H]. exact (IH true H).
    + exact (IH false H).
Qed.

Lemma clean_shape (text : pystr) :
  shape (Normalizer.clean_text_for_embedding isalnum text)
  = shape (str_strip (Normalizer.collapse false (Normalizer.blank_others isalnum text))).
Proof. rewrite clean_steps. apply restore_shape. exact preserved_terms_shape. Qed.

Lemma clean_single_spaced (text : pystr) :
  single_spaced false (Normalizer.clean_text_for_embedding isalnum text) = true.
Proof.
  rewrite (single_spaced_shape _ _ false (clean_shape text)).
  apply (strip_single_spaced _ false). apply collapse_single_spaced.
Qed.

Lemma clean_trimmed (text : pystr) :
  trimmed (Normalizer.clean_text_for_embedding isalnum text) = true.
Proof. rewrite (trimmed_shape _ _ (clean_shape text)). apply strip_trimmed. Qed.

Lemma clean_kept (text : pystr) (c : N) :
  forallb isalnum (List.concat Normalizer.preserved_terms) = true ->
  In c (Normalizer.clean_text_for_embedding isalnum text) ->
  Normalizer.kept isalnum c = true.
Proof.
  intros Hal H. rewrite clean_steps in H.
  destruct (restore_In _ _ _ H) as [H' | H'].
  - apply strip_In, collapse_In in H'. destruct H' as [-> | H'].
    + exact kept_space.
    + exact (blank_kept _ _ H').
  - rewrite forallb_forall in Hal. unfold Normalizer.kept. now rewrite (Hal c H').
Qed.

Lemma clean_no_lower (text term : pystr) :
  In term Normalizer.preserved_terms ->
  str_in (lower_latin1 term) (Normalizer.clean_text_for_embedding isalnum text) = false.
Proof. intros H. rewrite clean_steps. now apply preserved_terms_removed. Qed.

(** X17. The cleaned text is tidy: stripping it changes nothing, its only
    white space is the space, no two spaces are adjacent, and it is never
    longer than the text it comes from. *)
Theorem cleaned_text_is_tidy (text : pystr) :
  let cleaned := Normalizer.clean_text_for_embedding isalnum text in
  str_strip cleaned = cleaned
  /\ (forall c, In c cleaned -> isspace c = true -> c = 32)
  /\ str_in [32; 32] cleaned = false
  /\ (List.length cleaned <= List.length text)%nat.
Proof.
  intros cleaned. split; [| split; [| split]].
  - apply trimmed_strip, clean_trimmed.
  - intros c. apply (single_spaced_only _ false), clean_single_spaced.
  - apply (single_spaced_apart _ false), clean_single_spaced.
  - unfold cleaned. rewrite (shape_length _ _ (clean_shape text)).
    eapply Nat.le_trans; [apply strip_length |].
    eapply Nat.le_trans; [apply collapse_length |].
    unfold Normalizer.blank_others. rewrite length_map. apply Nat.le_refl.
Qed.

(** X18. No preserved acronym is left in lower case in the cleaned text,
    wherever it stood: inside a longer word as well. *)
Theorem no_lower_case_acronym_is_left (text term : pystr) :
  In term Normalizer.preserved_terms ->
  str_in (lower_latin1 term) (Normalizer.clean_text_for_embedding isalnum text) = false.
Proof. exact (clean_no_lower text term). Qed.

Lemma clean_idempotent (text : pystr) :
  forallb isalnum (List.concat Normalizer.preserved_terms) = true ->
  Normalizer.clean_text_for_embedding isalnum
    (Normalizer.clean_text_for_embedding isalnum text)
  = Normalizer.clean_text_for_embedding isalnum text.
Proof.
  intros Hal.
  set (cleaned := Normalizer.clean_text_for_embedding isalnum text).
  rewrite (clean_steps cleaned).
  rewrite (blank_fixed cleaned (fun c => clean_kept text c Hal)).
  rewrite (single_spaced_collapse cleaned false (clean_single_spaced text)).
  rewrite (trimmed_strip cleaned (clean_trimmed text)).
  apply restore_absent. intros term Hterm. exact (clean_no_lower text term Hterm).
Qed.

(** X19. Cleaning is idempotent: cleaning a cleaned text gives it back,
    the letters of the acronyms being alphanumeric. *)
Theorem cleaning_is_idempotent (text : pystr) :
  forallb isalnum (List.concat Normalizer.preserved_terms) = true ->
  Normalizer.clean_text_for_embedding isalnum
    (Normalizer.clean_text_for_embedding isalnum text)
  = Normalizer.clean_text_for_embedding isalnum text.
Proof. exact (clean_idempotent text). Qed.

(** X20. The search sees a query only through its cleaned text: the
    embedding and the search result of a query are those of its cleaned
    text, and two queries with the same cleaned text get the same ones. *)
Theorem search_sees_the_cleaned_query
    (env : SearchEnv) (query query' : pystr) (top_k : nat) :
  forallb isalnum (List.concat Normalizer.preserved_terms) = true ->
  let clean := Normalizer.clean_text_for_embedding isalnum in
  get_embedding clean env (clean query) = get_embedding clean env query
  /\ query_pinecone clean env (clean query) top_k = query_pinecone clean env query top_k
  /\ (clean query = clean query' ->
      query_pinecone clean env query top_k = query_pinecone clean env query' top_k).
Proof.
  intros Hal clean.
  assert (E : get_embedding clean env (clean query) = get_embedding clean env query).
  { unfold get_embedding, clean. now rewrite (clean_idempotent query Hal). }
  split; [exact E |]. split.
  - unfold query_pinecone. now rewrite E.
  - intros Hq. unfold query_pinecone, get_embedding. now rewrite Hq.
Qed.

End NormalizerProperties.

(** ** Runs of the normalizer *)

Example clean_noisy_text :
  Normalizer.clean_text_for_embedding isalnum_latin1 noisy_text
  = u8 "La rESPuesta del ABS 120 PSI".
Proof. vm_compute. reflexivity. Qed.

Lemma no_lower_case_acronym_is_left_witness :
  In (u8 "ESP") Normalizer.preserved_terms
  /\ str_in (lower_latin1 (u8 "ESP"))
            (Normalizer.clean_text_for_embedding isalnum_latin1 noisy_text) = false.
Proof.
  assert (H : In (u8 "ESP") Normalizer.preserved_terms)
    by (unfold Normalizer.preserved_terms; cbn [In]; do 4 right; left; reflexivity).
  split; [exact H |].
  exact (no_lower_case_acronym_is_left isalnum_latin1 noisy_text (u8 "ESP") H).
Defined.

Lemma cleaning_is_idempotent_witness :
  forallb isalnum_latin1 (List.concat Normalizer.preserved_terms) = true
  /\ Normalizer.clean_text_for_embedding isalnum_latin1
       (Normalizer.clean_text_for_embedding isalnum_latin1 noisy_text)
     = Normalizer.clean_text_for_embedding isalnum_latin1 noisy_text.
Proof.
  assert (H : forallb isalnum_latin1 (List.concat Normalizer.preserved_terms) = true)
    by (vm_compute; reflexivity).
  split; [exact H |].
  exact (cleaning_is_idempotent isalnum_latin1 noisy_text H).
Defined.

Lemma search_sees_the_cleaned_query_witness :
  forallb isalnum_latin1 (List.concat Normalizer.preserved_terms) = true
  /\ query_pinecone (Normalizer.clean_text_for_embedding isalnum_latin1) warm_env
       (Normalizer.clean_text_for_embedding isalnum_latin1 noisy_text) 5
     = query_pinecone (Normalizer.clean_text_for_embedding isalnum_latin1) warm_env
         noisy_text 5.
Proof.
  assert (H : forallb isalnum_latin1 (List.concat Normalizer.preserved_terms) = true)
    by (vm_compute; reflexivity).
  split; [exact H |].
  exact (proj1 (proj2 (search_sees_the_cleaned_query isalnum_latin1 warm_env
                         noisy_text noisy_text 5 H))).
Defined.
